(** * Ludwig's Ray backend and dataset cache: a shallow embedding

    The development follows [ludwig/backend/ray.py] and
    [ludwig/data/cache/manager.py].  Python dictionaries that are used as
    finite maps become [gmap]s, dictionaries whose insertion order is
    observable ([defaultdict] iterated by [max], [OrderedDict]) become
    association lists, exceptions become the [Raise] branch of [result],
    and the Python objects that are mutated in place live in an explicit
    heap. *)

From Stdlib Require Import Ascii String ZArith QArith Qcanon Lia PrimFloat.
From stdpp Require Import base option list gmap strings.

Open Scope Z_scope.

(** ** Exceptions and results *)

(** The exceptions the modelled code can raise.  [ValueError] is what
    [max()] raises on an empty sequence, [IndexError] what [results[0]]
    raises on an empty list, [TypeError] what unpacking [None] or
    [Path(None)] raises; [HandleExpired] is [ray.get] on an evicted
    reference, [RayActorError] a call on an actor that does not exist, and
    [WorkerError] an exception raised inside a remote
    closure, tagged by the closure that raised it. *)
Inductive exn : Type :=
  | ValueError
  | IndexError
  | TypeError
  | NotImplementedError
  | HandleExpired
  | RayActorError
  | WorkerError (tag : nat).

Inductive result (A : Type) : Type :=
  | Ok (a : A)
  | Raise (e : exn).
Arguments Ok {A} a.
Arguments Raise {A} e.

(** Values found in keyword-argument dictionaries. *)
Inductive pyval : Type :=
  | VInt (z : Z)
  | VBool (b : bool)
  | VStr (s : string).

(** ** Resource bucketing: [get_horovod_kwargs] *)

Module Bucketer.

(** One entry of [ray.state.nodes()], projected on ['Resources'], and the
    dictionary [ray.cluster_resources()]: resource kind to amount.  Ray
    only admits whole-number node capacities, which it reports as floats;
    [int(...)] converts them, so an amount is carried as a [Z] and a
    report is a [gmap string Z]. *)

(** [int(d.get(key, 0))] *)
Definition get_count (key : string) (d : gmap string Z) : Z :=
  default 0 (d !! key).

(** [buckets[k].append(n)] on a [defaultdict(list)]: the entry of [k]
    grows at its end when [k] is already a key, otherwise a new entry is
    added after all existing keys (dictionaries iterate in insertion
    order). *)
Fixpoint bucket_append (k : Z) (n : gmap string Z)
    (buckets : list (Z * list (gmap string Z))) : list (Z * list (gmap string Z)) :=
  match buckets with
  | [] => [(k, [n])]
  | (k', ns) :: rest =>
      if decide (k = k') then (k', ns ++ [n]) :: rest
      else (k', ns) :: bucket_append k n rest
  end.

(** The bucketing loop of lines 60-62. *)
Definition make_buckets (key : string) (resources : list (gmap string Z))
    : list (Z * list (gmap string Z)) :=
  foldl (fun buckets n => bucket_append (get_count key n) n buckets) [] resources.

(** [get_total_resources]: slots times number of hosts in the bucket. *)
Definition get_total_resources (bucket : Z * list (gmap string Z)) : Z :=
  let '(slots, resources) := bucket in
  slots * Z.of_nat (length resources).

(** Python's [max(iterable, key=f)]: the running maximum is replaced only
    by a strictly greater item, so the first maximal item wins. *)
Fixpoint py_max_from {A} (f : A -> Z) (best : A) (l : list A) : A :=
  match l with
  | [] => best
  | x :: l' => if decide (f best < f x) then py_max_from f x l' else py_max_from f best l'
  end.

Definition py_max {A} (f : A -> Z) (l : list A) : result A :=
  match l with
  | [] => Raise ValueError
  | x :: l' => Ok (py_max_from f x l')
  end.

(** [dict(num_slots=..., num_hosts=..., use_gpu=...)] *)
Definition kwargs_dict (slots : Z) (hosts : nat) (gpu : bool) : gmap string pyval :=
  <["num_slots" := VInt slots]>
    (<["num_hosts" := VInt (Z.of_nat hosts)]>
       (<["use_gpu" := VBool gpu]> ∅)).

Definition use_gpu_of (cluster : gmap string Z) : bool :=
  bool_decide (0 < get_count "GPU" cluster).

Definition target_key (gpu : bool) : string :=
  if gpu then "GPU" else "CPU".

(** [get_horovod_kwargs], with the two Ray queries it makes as inputs:
    [resources] is the list built on line 50 and [cluster] the dictionary
    read on line 51. *)
Definition get_horovod_kwargs (resources : list (gmap string Z))
    (cluster : gmap string Z) : result (gmap string pyval) :=
  let use_gpu := use_gpu_of cluster in
  let key := target_key use_gpu in
  let buckets := make_buckets key resources in
  match py_max get_total_resources buckets with
  | Raise e => Raise e
  | Ok (best_slots, best_resources) =>
      Ok (kwargs_dict best_slots (length best_resources) use_gpu)
  end.

(** *** Specification vocabulary *)

(** The distinct values of a list, in order of first occurrence. *)
Fixpoint first_seen (l : list Z) : list Z :=
  match l with
  | [] => []
  | x :: l' => x :: filter (fun y => y ≠ x) (first_seen l')
  end.

(** The nodes whose count of [key] is [k], in report order. *)
Definition nodes_with (key : string) (k : Z) (resources : list (gmap string Z)) :=
  filter (fun n => get_count key n = k) resources.

(** The score of the bucket of count [k]. *)
Definition score (key : string) (resources : list (gmap string Z)) (k : Z) : Z :=
  k * Z.of_nat (length (nodes_with key k resources)).

(** *** A cluster of four nodes, three with two GPUs and one with none *)

Definition node (gpus cpus : Z) : gmap string Z :=
  <["GPU" := gpus]> (<["CPU" := cpus]> ∅).

Definition four_nodes : list (gmap string Z) :=
  [node 2 8; node 2 8; node 2 8; node 0 8].

Definition four_nodes_cluster : gmap string Z :=
  <["GPU" := 6]> (<["CPU" := 32]> ∅).

End Bucketer.

(** ** Model objects, the object store and the driver's heap *)

(** What the backend uses of a model class: the pickling protocol
    ([__reduce__], the class called on its arguments, [__setstate__]) and
    the weight accessors.  The model classes themselves are outside this
    development. *)
Class ModelClass := {
  obj : Type;
  cls : Type;
  ctor_args : Type;
  state : Type;
  weights : Type;
  py_reduce : obj -> cls * ctor_args * state;
  py_new : cls -> ctor_args -> obj;
  py_setstate : obj -> state -> obj;
  get_weights : obj -> weights;
  set_weights : obj -> weights -> obj
}.

(** The contract of that protocol: restoring a reduced state into a newly
    constructed instance gives an object that reduces to the same recipe,
    and [get_weights] reads what [set_weights] wrote. *)
Class ModelLaws (MC : ModelClass) : Prop := {
  reduce_restore : forall (m : obj) c a s,
    py_reduce m = (c, a, s) -> py_reduce (py_setstate (py_new c a) s) = (c, a, s);
  get_set_weights : forall (m : obj) w, get_weights (set_weights m w) = w
}.

(** Metric values and their addition. *)
Class MetricValue := {
  mval : Type;
  madd : mval -> mval -> mval
}.

Class MetricLaws (MV : MetricValue) : Prop := {
  madd_comm : forall x y : mval, madd x y = madd y x;
  madd_assoc : forall x y z : mval, madd x (madd y z) = madd (madd x y) z
}.

(** Calls into Ray that later statements count or order. *)
Inductive event : Type :=
  | EvPut (ref : nat)
  | EvGet (ref : nat)
  | EvActorNew (actor : nat)
  | EvAddMetrics (actor : nat)
  | EvCollect (actor : nat)
  | EvMapPartitions (partitions : nat).

Definition is_put (e : event) : bool :=
  match e with
  | EvPut _ => true
  | _ => false
  end.

(** The number of [ray.put] calls in a log. *)
Definition put_count (tr : list event) : nat :=
  length (filter is_put tr).

(** The object references fetched with [ray.get], in the order of the
    calls. *)
Definition get_refs (tr : list event) : list nat :=
  omap (fun e => match e with EvGet r => Some r | _ => None end) tr.

Section World.
Context {MC : ModelClass} {MV : MetricValue}.

(** An [OrderedDict] of metrics. *)
Definition metrics : Type := list (string * mval).

(** The state the backend works on: the Python objects of the driver
    process by identity, Ray's object store (an [ObjectRef] is an index,
    entries are never rewritten), the [MetricCollector] actors with their
    [self.metrics] lists, and the log of Ray calls. *)
Record world : Type := World {
  heap : gmap nat obj;
  store : list state;
  actors : list (list metrics);
  trace : list event
}.

Definition set_heap (h : gmap nat obj) (w : world) : world :=
  World h (store w) (actors w) (trace w).
Definition set_store (s : list state) (w : world) : world :=
  World (heap w) s (actors w) (trace w).
Definition set_actors (a : list (list metrics)) (w : world) : world :=
  World (heap w) (store w) a (trace w).
Definition log (e : event) (w : world) : world :=
  World (heap w) (store w) (actors w) (trace w ++ [e]).

(** Computations: a state that survives a raised exception. *)
Definition M (A : Type) : Type := world -> world * result A.

Definition ret {A} (a : A) : M A := fun w => (w, Ok a).
Definition raise {A} (e : exn) : M A := fun w => (w, Raise e).
Definition bind {A B} (m : M A) (k : A -> M B) : M B :=
  fun w =>
    match m w with
    | (w', Ok a) => k a w'
    | (w', Raise e) => (w', Raise e)
    end.

(** A list comprehension over effectful calls, left to right, stopping at
    the first exception. *)
Fixpoint for_each {A B} (f : A -> M B) (l : list A) : M (list B) :=
  match l with
  | [] => ret []
  | x :: l' => bind (f x) (fun y => bind (for_each f l') (fun ys => ret (y :: ys)))
  end.

(** Reading and updating an object of the driver.  A name always holds a
    live object in Python; [TypeError] stands for the unreachable case of a
    location without one. *)
Definition deref (l : nat) : M obj :=
  fun w => match heap w !! l with
           | Some o => (w, Ok o)
           | None => (w, Raise TypeError)
           end.

Definition assign (l : nat) (o : obj) : M unit :=
  fun w => (set_heap (<[l := o]> (heap w)) w, Ok tt).

Definition alloc (o : obj) : M nat :=
  fun w => let l := fresh (dom (heap w)) in
           (set_heap (<[l := o]> (heap w)) w, Ok l).

(** [ray.put] and [ray.get]. *)
Definition ray_put (s : state) : M nat :=
  fun w => let r := length (store w) in
           (log (EvPut r) (set_store (store w ++ [s]) w), Ok r).

Definition ray_get (r : nat) : M state :=
  fun w => match store w !! r with
           | Some s => (log (EvGet r) w, Ok s)
           | None => (w, Raise HandleExpired)
           end.

End World.

Declare Scope m_scope.
Delimit Scope m_scope with M.
Notation "x <- m ;; k" := (bind m (fun x => k))
  (at level 100, m at next level, right associativity) : m_scope.
Notation "m ;;; k" := (bind m (fun _ => k))
  (at level 100, right associativity) : m_scope.

(** ** [RayRemoteModel] *)

Section RemoteModel.
Context {MC : ModelClass} {MV : MetricValue}.
Local Open Scope m_scope.

(** The attributes [self.cls], [self.args] and [self.state]; the last one
    is the [ObjectRef] returned by [ray.put]. *)
Record RayRemoteModel : Type := RemoteModel {
  rm_cls : cls;
  rm_args : ctor_args;
  rm_state : nat
}.

(** [RayRemoteModel.__init__(model)] *)
Definition RayRemoteModel_init (model : nat) : M RayRemoteModel :=
  m <- deref model ;;
  let '(c, a, s) := py_reduce m in
  r <- ray_put s ;;
  ret (RemoteModel c a r).

(** The object [load] builds, before it is given an identity:
    [obj = self.cls( *self.args )] followed by
    [obj.__setstate__(ray.get(self.state))]. *)
Definition load_value (self : RayRemoteModel) : M obj :=
  let o := py_new (rm_cls self) (rm_args self) in
  s <- ray_get (rm_state self) ;;
  ret (py_setstate o s).

(** [RayRemoteModel.load] in the driver process: the new object gets an
    identity no existing object has. *)
Definition load (self : RayRemoteModel) : M nat :=
  o <- load_value self ;;
  alloc o.

(** [n] successive calls of [load] on one handle. *)
Fixpoint load_many (n : nat) (self : RayRemoteModel) : M (list nat) :=
  match n with
  | O => ret []
  | S n' => l <- load self ;; ls <- load_many n' self ;; ret (l :: ls)
  end.

End RemoteModel.

(** ** [RayRemoteTrainer] and [RayTrainer] *)

Section Trainer.
Context {MC : ModelClass} {MV : MetricValue}.
Context {targs stats : Type}.
Local Open Scope m_scope.

(** A started worker: the [train] and [train_online] methods that
    [RayRemoteTrainer] inherits from [RemoteTrainer], applied to the model
    instance loaded on that worker and to the call's arguments.  Either
    may raise, and either may return [None]. *)
Record RemoteTrainer : Type := {
  super_train : obj -> targs -> result (option (obj * stats));
  super_train_online : obj -> targs -> result (option obj)
}.

(** [RayRemoteTrainer.train] *)
Definition RayRemoteTrainer_train (self : RemoteTrainer) (model : obj) (a : targs)
    : result (option (weights * stats)) :=
  match super_train self model a with
  | Raise e => Raise e
  | Ok None => Ok None
  | Ok (Some (model', st)) => Ok (Some (get_weights model', st))
  end.

(** [RayRemoteTrainer.train_online] *)
Definition RayRemoteTrainer_train_online (self : RemoteTrainer) (model : obj) (a : targs)
    : result (option weights) :=
  match super_train_online self model a with
  | Raise e => Raise e
  | Ok None => Ok None
  | Ok (Some model') => Ok (Some (get_weights model'))
  end.

Definition lift {A} (r : result A) : M A :=
  fun w => (w, r).

(** [RayExecutor.execute(fn)]: [fn] runs on every worker and the results
    come back in worker order; an exception of a worker is raised to the
    caller. *)
Definition execute {A} (workers : list RemoteTrainer) (fn : RemoteTrainer -> M A)
    : M (list A) :=
  for_each fn workers.

(** [RayTrainer]: its executor, reduced to the workers it started. *)
Record RayTrainer : Type := {
  executor_workers : list RemoteTrainer
}.

(** The closures handed to [execute] by [train] and [train_online]:
    [lambda trainer: trainer.train(remote_model.load(), *args, **kwargs)],
    run on the worker, where the loaded model is an object of the worker's
    own process. *)
Definition train_fn (remote_model : RayRemoteModel) (a : targs)
    (trainer : RemoteTrainer) : M (option (weights * stats)) :=
  m <- load_value remote_model ;;
  lift (RayRemoteTrainer_train trainer m a).

Definition train_online_fn (remote_model : RayRemoteModel) (a : targs)
    (trainer : RemoteTrainer) : M (option weights) :=
  m <- load_value remote_model ;;
  lift (RayRemoteTrainer_train_online trainer m a).

(** [RayTrainer.train]: [results[0]] raises [IndexError] on an empty
    list, and unpacking it raises [TypeError] when it is [None]. *)
Definition train (self : RayTrainer) (model : nat) (a : targs) : M (nat * stats) :=
  remote_model <- RayRemoteModel_init model ;;
  results <- execute (executor_workers self) (train_fn remote_model a) ;;
  match results with
  | [] => raise IndexError
  | None :: _ => raise TypeError
  | Some (w0, st) :: _ =>
      m <- deref model ;;
      assign model (set_weights m w0) ;;;
      ret (model, st)
  end.

(** [RayTrainer.train_online]; [set_weights(None)] is taken to raise. *)
Definition train_online (self : RayTrainer) (model : nat) (a : targs) : M nat :=
  remote_model <- RayRemoteModel_init model ;;
  results <- execute (executor_workers self) (train_online_fn remote_model a) ;;
  match results with
  | [] => raise IndexError
  | None :: _ => raise TypeError
  | Some w0 :: _ =>
      m <- deref model ;;
      assign model (set_weights m w0) ;;;
      ret model
  end.

End Trainer.

(** ** [MetricCollector] *)

Section Collector.
Context {MC : ModelClass} {MV : MetricValue}.
Local Open Scope m_scope.

(** Modelled from the spec: one step of the merge of
    [ludwig.utils.misc_utils.sum_dicts], which is not among the sources.
    "Summing values for identical keys": the value is added to the one
    already held under [key], and a key not yet held is entered, last,
    with the value. *)
Fixpoint dict_add (key : string) (value : mval) (summed : metrics) : metrics :=
  match summed with
  | [] => [(key, value)]
  | (k, prev_value) :: rest =>
      if decide (key = k) then (k, madd prev_value value) :: rest
      else (k, prev_value) :: dict_add key value rest
  end.

(** Modelled from the spec: [ludwig.utils.misc_utils.sum_dicts] is not
    among the sources.  The spec has [collect] merge "all received
    mappings by summing values for identical keys, in the order mappings
    were received": the result starts empty, and every item of every
    mapping, in order, is added under its key. *)
Definition sum_dicts (dicts : list metrics) : metrics :=
  foldl (fun summed d => foldl (fun acc kv => dict_add kv.1 kv.2 acc) summed d) [] dicts.

(** [d.get(key)] on an ordered dictionary. *)
Fixpoint dict_get (key : string) (d : metrics) : option mval :=
  match d with
  | [] => None
  | (k, v) :: rest => if decide (key = k) then Some v else dict_get key rest
  end.

(** The values received under [key], in arrival order. *)
Definition values_of (key : string) (dicts : list metrics) : list mval :=
  flat_map (fun d => map snd (filter (fun kv => kv.1 = key) d)) dicts.

(** The sum of a sequence of values, accumulated from its first value;
    there is no sum of no value. *)
Definition sum_values (vs : list mval) : option mval :=
  match vs with
  | [] => None
  | v :: vs' => Some (foldl madd v vs')
  end.

(** The actor class: [self.metrics] is the whole state. *)
Definition MetricCollector_init : list metrics := [].

Definition MetricCollector_add_metrics (self : list metrics) (m : metrics)
    : list metrics * unit :=
  (self ++ [m], tt).

Definition MetricCollector_collect (self : list metrics) : list metrics * metrics :=
  (self, sum_dicts self).

(** The actor state after a sequence of [add_metrics] calls, in arrival
    order. *)
Definition add_all (self : list metrics) (arrivals : list metrics) : list metrics :=
  foldl (fun self m => (MetricCollector_add_metrics self m).1) self arrivals.

(** What [collect] returns after [add_metrics] calls with the mappings
    [{key: a}], for the values [a] in arrival order. *)
Definition collected (key : string) (arrival : list mval) : metrics :=
  (MetricCollector_collect
     (add_all MetricCollector_init (map (fun a => [(key, a)]) arrival))).2.

(** The merged mapping is the same for every arrival order of the
    calls. *)
Definition order_independent : Prop :=
  forall (key : string) (arrival arrival' : list mval),
    arrival ≡ₚ arrival' -> collected key arrival = collected key arrival'.

(** [MetricCollector.remote()] and the two remote method calls, each
    awaited with [ray.get]. *)
Definition MetricCollector_remote : M nat :=
  fun w => let a := length (actors w) in
           (log (EvActorNew a) (set_actors (actors w ++ [MetricCollector_init]) w), Ok a).

Definition remote_add_metrics (a : nat) (m : metrics) : M unit :=
  fun w => match actors w !! a with
           | Some self =>
               let '(self', r) := MetricCollector_add_metrics self m in
               (log (EvAddMetrics a) (set_actors (<[a := self']> (actors w)) w), Ok r)
           | None => (w, Raise RayActorError)
           end.

Definition remote_collect (a : nat) : M metrics :=
  fun w => match actors w !! a with
           | Some self =>
               let '(self', r) := MetricCollector_collect self in
               (log (EvCollect a) (set_actors (<[a := self']> (actors w)) w), Ok r)
           | None => (w, Raise RayActorError)
           end.

End Collector.

(** ** [RayPredictor] *)

Section Predictor.
Context {MC : ModelClass} {MV : MetricValue}.
Context {pkwargs part pargs preds : Type}.
Local Open Scope m_scope.

(** The worker-local routines [Predictor( **kwargs ).batch_predict] and
    [.batch_evaluation]. *)
Variable predictor_batch_predict : pkwargs -> obj -> part -> pargs -> result preds.
Variable predictor_batch_evaluation :
  pkwargs -> obj -> part -> pargs -> result (metrics * preds).

Record RayPredictor : Type := {
  predictor_kwargs : pkwargs;
  actor_handles : list nat
}.

(** What the nested function [batch_predict_partition] closes over. *)
Record predict_env : Type := {
  pe_remote_model : RayRemoteModel;
  pe_predictor_kwargs : pkwargs;
  pe_args : pargs
}.

Definition batch_predict_partition (env : predict_env) (dataset : part) : M preds :=
  model <- load_value (pe_remote_model env) ;;
  lift (predictor_batch_predict (pe_predictor_kwargs env) model dataset (pe_args env)).

(** What [batch_evaluate_partition] closes over. *)
Record evaluate_env : Type := {
  ee_metric_collector : nat;
  ee_remote_model : RayRemoteModel;
  ee_predictor_kwargs : pkwargs;
  ee_args : pargs
}.

Definition batch_evaluate_partition (env : evaluate_env) (dataset : part) : M preds :=
  model <- load_value (ee_remote_model env) ;;
  r <- lift (predictor_batch_evaluation (ee_predictor_kwargs env) model dataset (ee_args env)) ;;
  remote_add_metrics (ee_metric_collector env) r.1 ;;;
  ret r.2.

(** [dataset.map_partitions(fn)] is lazy: it records, for every partition,
    the function to apply, and runs nothing. *)
Definition map_partitions {E} (fn : E) (dataset : list part) : M (list (E * part)) :=
  fun w => (log (EvMapPartitions (length dataset)) w, Ok (map (pair fn) dataset)).

(** Forcing the recorded tasks, in partition order. *)
Definition compute_predictions (tasks : list (predict_env * part)) : M (list preds) :=
  for_each (fun t => batch_predict_partition t.1 t.2) tasks.

(** The evaluation tasks share the collector.  The tasks of the
    partitions run in parallel, not ordered relative to each other, and
    the collector actor serves their [add_metrics] calls one at a time, in
    the order they arrive.  [arrival] is that order, as indices of
    partitions; an index outside the dataset names no task. *)
Definition scheduled {T} (tasks : list T) (arrival : list nat) : list (nat * T) :=
  omap (fun i => pair i <$> tasks !! i) arrival.

(** The results of the tasks, by partition. *)
Definition in_partition_order {A} (n : nat) (results : list (nat * A)) : list A :=
  omap (fun j => (list_to_map results : gmap nat A) !! j) (seq 0 n).

(** Forcing the evaluation tasks, the tasks reaching the collector in the
    order [arrival]: the predictions come back by partition, whatever
    that order. *)
Definition compute_evaluations (arrival : list nat) (tasks : list (evaluate_env * part))
    : M (list preds) :=
  results <- for_each (fun it => r <- batch_evaluate_partition it.2.1 it.2.2 ;; ret (it.1, r))
               (scheduled tasks arrival) ;;
  ret (in_partition_order (length tasks) results).

(** [RayPredictor.batch_predict] *)
Definition batch_predict (self : RayPredictor) (model : nat) (dataset : list part)
    (a : pargs) : M (list (predict_env * part)) :=
  remote_model <- RayRemoteModel_init model ;;
  let predictor_kwargs := predictor_kwargs self in
  map_partitions
    {| pe_remote_model := remote_model;
       pe_predictor_kwargs := predictor_kwargs;
       pe_args := a |}
    dataset.

(** [RayPredictor.batch_evaluation]; the predictor comes back with the
    new actor appended to its [actor_handles]. *)
Definition batch_evaluation (self : RayPredictor) (model : nat) (dataset : list part)
    (a : pargs) : M (RayPredictor * (metrics * list (evaluate_env * part))) :=
  metric_collector <- MetricCollector_remote ;;
  let self' := {| predictor_kwargs := predictor_kwargs self;
                  actor_handles := actor_handles self ++ [metric_collector] |} in
  remote_model <- RayRemoteModel_init model ;;
  let predictor_kwargs := predictor_kwargs self in
  predictions <- map_partitions
    {| ee_metric_collector := metric_collector;
       ee_remote_model := remote_model;
       ee_predictor_kwargs := predictor_kwargs;
       ee_args := a |}
    dataset ;;
  metrics <- remote_collect metric_collector ;;
  ret (self', (metrics, predictions)).

(** [RayPredictor.batch_collect_activations] *)
Definition batch_collect_activations {A} (self : RayPredictor) (model : nat) : M A :=
  raise NotImplementedError.

End Predictor.

(** ** Vocabulary of the statements *)

Section Vocabulary.
Context {MC : ModelClass} {MV : MetricValue}.

(** A relation that holds between the world before any run of a
    computation and the world after it. *)
Definition keeps {A} (P : world -> world -> Prop) (m : M A) : Prop :=
  forall w, P w (m w).1.

(** The driver's objects are the same. *)
Definition same_heap (w w' : world) : Prop := heap w' = heap w.

(** Nothing was published: the object store is the same and the log has
    no further [ray.put]. *)
Definition no_put (w w' : world) : Prop :=
  store w' = store w /\ put_count (trace w') = put_count (trace w).

(** The world after capturing a model that holds [m], and the handle
    that capture makes. *)
Definition captured (w : world) (m : obj) : world :=
  log (EvPut (length (store w))) (set_store (store w ++ [(py_reduce m).2]) w).

Definition handle_of (w : world) (m : obj) : RayRemoteModel :=
  RemoteModel (py_reduce m).1.1 (py_reduce m).1.2 (length (store w)).

(** The world in which a new [MetricCollector] exists. *)
Definition with_collector (w : world) : world :=
  log (EvActorNew (length (actors w))) (set_actors (actors w ++ [MetricCollector_init]) w).

End Vocabulary.

(** ** A small model class and exact rational metrics *)

Module Toy.

(** A model with a name, a list of layer sizes given to its constructor,
    and a list of integer weights as its whole state. *)
Record toy_model : Type := {
  tm_cls : string;
  tm_args : list Z;
  tm_weights : list Z
}.

#[export] Instance toy_class : ModelClass := {|
  obj := toy_model;
  cls := string;
  ctor_args := list Z;
  state := list Z;
  weights := list Z;
  py_reduce m := (tm_cls m, tm_args m, tm_weights m);
  py_new c a := {| tm_cls := c; tm_args := a; tm_weights := [] |};
  py_setstate m s := {| tm_cls := tm_cls m; tm_args := tm_args m; tm_weights := s |};
  get_weights := tm_weights;
  set_weights m w := {| tm_cls := tm_cls m; tm_args := tm_args m; tm_weights := w |}
|}.

(** Metric values as exact rationals. *)
#[export] Instance qc_metric : MetricValue := {|
  mval := Qc;
  madd := Qcplus
|}.



Definition toy : toy_model :=
  {| tm_cls := "ECD"; tm_args := [3; 2]; tm_weights := [10; 20] |}.

(** A driver holding [toy] at location 0 and nothing else. *)
Definition toy_world : world :=
  World (<[0%nat := toy]> ∅) [] [] [].

(** Workers of a training job: one that replaces the weights by [ws],
    one that returns nothing, one that raises. *)
Definition worker_returning (ws : list Z) (st : nat) : @RemoteTrainer toy_class unit nat :=
  {| super_train m _ := Ok (Some (set_weights m ws, st));
     super_train_online m _ := Ok (Some (set_weights m ws)) |}.

Definition worker_silent : @RemoteTrainer toy_class unit nat :=
  {| super_train _ _ := Ok None;
     super_train_online _ _ := Ok None |}.

Definition worker_raising (tag : nat) : @RemoteTrainer toy_class unit nat :=
  {| super_train _ _ := Raise (WorkerError tag);
     super_train_online _ _ := Raise (WorkerError tag) |}.

(** Worker-local prediction: a partition is a list of numbers, the
    prediction adds the first weight to each; a partition holding a
    negative number makes the routine raise. *)
Definition toy_predict (_ : unit) (m : toy_model) (p : list Z) (_ : unit)
    : result (list Z) :=
  if decide (Forall (fun x => 0 <= x) p)
  then Ok (map (Z.add (default 0 (head (tm_weights m)))) p)
  else Raise (WorkerError 0).

Definition toy_evaluate (_ : unit) (m : toy_model) (p : list Z) (_ : unit)
    : result (list (string * Qc) * list Z) :=
  match toy_predict tt m p tt with
  | Ok r => Ok ([("n"%string, Q2Qc (inject_Z (Z.of_nat (length p))))], r)
  | Raise e => Raise e
  end.

(** Two workers that disagree: the first returns the weights 1, 2, the
    second 9, 9. *)
Definition two_workers : RayTrainer :=
  {| executor_workers := [worker_returning [1; 2] 7; worker_returning [9; 9] 8] |}.

(** A job whose second worker raises. *)
Definition failing_workers : RayTrainer :=
  {| executor_workers := [worker_returning [1; 2] 7; worker_raising 1] |}.

Definition toy_predictor : RayPredictor := {| predictor_kwargs := tt; actor_handles := [] |}.

Definition toy_dataset : list (list Z) := [[1; 2]; [3]; [4; 5; 6]].

(** A dataset whose second partition makes the routines raise. *)
Definition bad_dataset : list (list Z) := [[1; 2]; [-3]; [4]].

End Toy.

(** ** Metric values as Python has them *)

Module FloatMetrics.

(** Binary64 floating-point numbers with their addition, rounded to
    nearest. *)
Definition float_metric : MetricValue := {|
  mval := float;
  madd := PrimFloat.add
|}.

(** The floats that Python reads for [0.1], [0.2] and [0.3]. *)
Definition tenth : float := 0x1.999999999999ap-4%float.
Definition fifth : float := 0x1.999999999999ap-3%float.
Definition three_tenths : float := 0x1.3333333333333p-2%float.

End FloatMetrics.

(** ** [RayTrainer.__init__]: the executor's configuration *)

Module TrainerInit.
Import Bucketer.

(** What [RayExecutor.create_settings(timeout_s=...)] records of the
    coordination timeout. *)
Record Settings : Type := {
  timeout_s : Z
}.

Definition create_settings (timeout : Z) : Settings :=
  {| timeout_s := timeout |}.

(** The two arguments of the call [RayExecutor(setting, **kwargs)]. *)
Record executor_args : Type := {
  ea_settings : Settings;
  ea_kwargs : gmap string pyval
}.

(** [{**a, **b}]: the items of [a], then those of [b], a key of [b]
    replacing the same key of [a].  [∪] on [gmap] prefers its left
    operand. *)
Definition dict_merge (a b : gmap string pyval) : gmap string pyval :=
  b ∪ a.

(** Lines 123 and 124: the settings and keyword arguments the executor
    is built from. *)
Definition RayTrainer_executor_args (resources : list (gmap string Z))
    (cluster : gmap string Z) (horovod_kwargs : gmap string pyval)
    : result executor_args :=
  let setting := create_settings 30 in
  match get_horovod_kwargs resources cluster with
  | Raise e => Raise e
  | Ok derived =>
      Ok {| ea_settings := setting; ea_kwargs := dict_merge derived horovod_kwargs |}
  end.

(** The fields of a worker-group configuration, read off the executor's
    arguments: the coordination timeout is in the settings, the other
    three are keyword arguments. *)
Inductive config_field : Type :=
  | NumSlots
  | NumHosts
  | UseGpu
  | CoordinationTimeout.

Definition field_key (f : config_field) : string :=
  match f with
  | NumSlots => "num_slots"
  | NumHosts => "num_hosts"
  | UseGpu => "use_gpu"
  | CoordinationTimeout => "timeout_s"
  end.

Definition passed_value (ea : executor_args) (f : config_field) : option pyval :=
  match f with
  | CoordinationTimeout => Some (VInt (timeout_s (ea_settings ea)))
  | _ => ea_kwargs ea !! field_key f
  end.

(** The same fields of the configuration derived from the resources
    alone, that is, under no override. *)
Definition derived_value (resources : list (gmap string Z)) (cluster : gmap string Z)
    (f : config_field) : option pyval :=
  match RayTrainer_executor_args resources cluster ∅ with
  | Ok ea => passed_value ea f
  | Raise _ => None
  end.

(** Field-by-field precedence of the overrides, for one field. *)
Definition override_wins (resources : list (gmap string Z)) (cluster : gmap string Z)
    (horovod_kwargs : gmap string pyval) (f : config_field) : Prop :=
  forall ea, RayTrainer_executor_args resources cluster horovod_kwargs = Ok ea ->
    passed_value ea f =
      match horovod_kwargs !! field_key f with
      | Some v => Some v
      | None => derived_value resources cluster f
      end.

End TrainerInit.

(** ** [CacheManager]: cache paths *)

Module CacheManager.

Local Open Scope char_scope.

Definition chars (s : string) : list ascii := list_ascii_of_string s.
Definition str (l : list ascii) : string := string_of_list_ascii l.

Fixpoint take_until (c : ascii) (l : list ascii) : list ascii :=
  match l with
  | [] => []
  | x :: l' => if decide (x = c) then [] else x :: take_until c l'
  end.

Fixpoint drop_until (c : ascii) (l : list ascii) : list ascii :=
  match l with
  | [] => []
  | x :: l' => if decide (x = c) then l else drop_until c l'
  end.

Fixpoint lstrip (c : ascii) (l : list ascii) : list ascii :=
  match l with
  | [] => []
  | x :: l' => if decide (x = c) then lstrip c l' else l
  end.

(** [s.rstrip(c)] *)
Definition rstrip (c : ascii) (l : list ascii) : list ascii :=
  rev (lstrip c (rev l)).

(** [p[:p.rfind('/') + 1]] *)
Definition head_of (p : list ascii) : list ascii :=
  rev (drop_until "/" (rev p)).

(** [os.path.dirname] of [posixpath]: the part up to the last slash,
    without its trailing slashes unless it consists of slashes only. *)
Definition dirname (p : string) : string :=
  let head := head_of (chars p) in
  if decide (head ≠ [] ∧ lstrip "/" head ≠ [])
  then str (rstrip "/" head)
  else str head.

(** [os.path.join(a, b)] of [posixpath]. *)
Definition join (a b : string) : string :=
  match chars b with
  | "/" :: _ => b
  | _ =>
      match rev (chars a) with
      | [] => a +:+ b
      | "/" :: _ => a +:+ b
      | _ => a +:+ "/" +:+ b
      end
  end.

(** The components of a path between slashes. *)
Fixpoint split_sep (p : list ascii) : list (list ascii) :=
  match p with
  | [] => [[]]
  | c :: p' =>
      if decide (c = "/") then [] :: split_sep p'
      else match split_sep p' with
           | [] => [[c]]
           | x :: xs => (c :: x) :: xs
           end
  end.

(** [Path(p).name]: the last component, empty and ["."] components
    being dropped by the parser. *)
Definition path_name (p : string) : list ascii :=
  default [] (last (filter (fun x => x ≠ [] ∧ x ≠ ["."]) (split_sep (chars p)))).

(** [Path(p).stem]: the name without its last suffix; a name whose only
    dot is its first or its last character has no suffix. *)
Definition path_stem (p : string) : string :=
  let name := path_name p in
  let r := rev name in
  match drop_until "." r with
  | [] => str name
  | _ :: stem_rev =>
      if decide (stem_rev ≠ [] ∧ take_until "." r ≠ [])
      then str (rev stem_rev)
      else str name
  end.

Record CacheManager : Type := {
  data_format : string;
  cache_dir : option string
}.

(** [get_cache_directory] *)
Definition get_cache_directory (self : CacheManager) (input_fname : option string)
    : string :=
  match cache_dir self with
  | None =>
      match input_fname with
      | Some f => dirname f
      | None => "."
      end
  | Some d => d
  end.

(** [x or y] on an optional string: [None] and the empty string are
    false. *)
Definition truthy (x : option string) : option string :=
  match x with
  | Some "" => None
  | _ => x
  end%string.

(** [get_cache_path] *)
Definition get_cache_path (self : CacheManager) (input_fname : option string)
    (key : string) (tag ext : option string) : result string :=
  match
    match truthy tag with
    | Some t => Ok t
    | None =>
        match input_fname with
        | Some f => Ok (path_stem f)
        | None => Raise TypeError
        end
    end
  with
  | Raise e => Raise e
  | Ok tag =>
      let ext := match truthy ext with Some e => e | None => data_format self end in
      let cache_fname := key +:+ "." +:+ tag +:+ "." +:+ ext in
      let cache_fname :=
        match cache_dir self with
        | None => tag +:+ "." +:+ ext
        | Some _ => cache_fname
        end in
      Ok (join (get_cache_directory self input_fname) cache_fname)
  end.

End CacheManager.

(** ** Cluster totals *)

Module ClusterTotals.
Import Bucketer.

(** The amount of [key] over all reported nodes. *)
Definition total_of (key : string) (resources : list (gmap string Z)) : Z :=
  foldr (fun n acc => get_count key n + acc) 0 resources.

(** Two nodes with one GPU each reported before one node with two: both
    buckets score 2. *)
Definition tied_nodes : list (gmap string Z) :=
  [node 1 4; node 1 4; node 2 4].

Definition tied_cluster : gmap string Z :=
  <["GPU" := 4]> (<["CPU" := 12]> ∅).

End ClusterTotals.

(** ** More jobs for the small model class *)

Module ToyJobs.
Import Toy.

(** An executor that started no worker. *)
Definition no_workers : RayTrainer (targs := unit) (stats := nat) :=
  {| executor_workers := [] |}.

(** A job whose first worker returns nothing while the second returns
    weights. *)
Definition silent_first : RayTrainer :=
  {| executor_workers := [worker_silent; worker_returning [9; 9] 8] |}.

(** [toy] with other weights. *)
Definition toy_retrained : toy_model :=
  {| tm_cls := "ECD"; tm_args := [3; 2]; tm_weights := [7] |}.

End ToyJobs.

(** ** [RayBackend]: the keyword arguments it hands on *)

Module Backend.
Import Bucketer TrainerInit.

(** The attributes [_horovod_kwargs] and [_tensorflow_kwargs]. *)
Record RayBackend : Type := {
  _horovod_kwargs : gmap string pyval;
  _tensorflow_kwargs : gmap string pyval
}.

(** [RayBackend.__init__(horovod_kwargs=None)]: [horovod_kwargs or {}]. *)
Definition RayBackend_init (horovod_kwargs : option (gmap string pyval)) : RayBackend :=
  {| _horovod_kwargs := default ∅ horovod_kwargs;
     _tensorflow_kwargs := ∅ |}.

(** [RayBackend.initialize_tensorflow( **kwargs )], as far as the backend
    object goes: the keyword arguments are kept for the workers. *)
Definition initialize_tensorflow (self : RayBackend) (kwargs : gmap string pyval)
    : RayBackend :=
  {| _horovod_kwargs := _horovod_kwargs self;
     _tensorflow_kwargs := kwargs |}.

(** [RayBackend.create_trainer( **kwargs )]: the arguments the executor of
    the new [RayTrainer] is built from, and the [executable_kwargs] its
    workers are started with. *)
Definition create_trainer (self : RayBackend) (kwargs : gmap string pyval)
    (resources : list (gmap string Z)) (cluster : gmap string Z)
    : result (executor_args * gmap string pyval) :=
  let executable_kwargs := dict_merge kwargs (_tensorflow_kwargs self) in
  match RayTrainer_executor_args resources cluster (_horovod_kwargs self) with
  | Raise e => Raise e
  | Ok ea => Ok (ea, executable_kwargs)
  end.

(** [RayBackend.create_predictor( **kwargs )]: [RayPredictor.__init__]
    keeps the [predictor_kwargs] and starts with no actor handle. *)
Definition create_predictor (self : RayBackend) (kwargs : gmap string pyval)
    : RayPredictor :=
  let executable_kwargs := dict_merge kwargs (_tensorflow_kwargs self) in
  {| predictor_kwargs := executable_kwargs; actor_handles := [] |}.

End Backend.

(** ** [CacheManager]: reading and writing the cache *)

Module CacheStore.
Import CacheManager.

#[export] Instance pyval_eq_dec : EqDecision pyval.
Proof. solve_decision. Defined.

(** Whether a string starts with the separator. *)
Definition leading_slash (x : string) : bool :=
  match x with
  | String "/" _ => true
  | _ => false
  end.

(** What [os.path.join(d, x)] puts before [x] when [x] is relative. *)
Definition join_prefix (d : string) : string :=
  match rev (chars d) with
  | [] => d
  | "/"%char :: _ => d
  | _ => d +:+ "/"
  end.

(** The pieces of a cache file name: the tag or, without one, the stem
    of the input file; the extension or, without one, the data format;
    and the name made of them, with the key in front when there is a
    cache directory. *)
Definition tag_or_stem (tag : option string) (f : string) : string :=
  match truthy tag with
  | Some t => t
  | None => path_stem f
  end.

Definition ext_or_format (self : CacheManager) (ext : option string) : string :=
  match truthy ext with
  | Some e => e
  | None => data_format self
  end.

Definition cache_fname (self : CacheManager) (key tag ext : string) : string :=
  match cache_dir self with
  | None => tag +:+ "." +:+ ext
  | Some _ => key +:+ "." +:+ tag +:+ "." +:+ ext
  end.

(** The paths of the cache entry of the input file [f]: the metadata
    and, by tag, the datasets. *)
Definition meta_path (self : CacheManager) (f key : string) : string :=
  join (get_cache_directory self (Some f)) (cache_fname self key "meta" "json").

Definition data_path (self : CacheManager) (f key : string) (tag : option string)
    : string :=
  join (get_cache_directory self (Some f))
    (cache_fname self key (tag_or_stem tag f) (data_format self)).

Section Store.
Context {fs dataset config : Type}.

(** The metadata key [ludwig.constants.CHECKSUM] and the checksum of
    [ludwig.data.cache.util], which are outside this development, with
    the file operations of [fs_utils] and [data_utils] and the two
    methods of the dataset manager that [put_dataset] calls. *)
Variable CHECKSUM : string.
Variable calculate_checksum : string -> config -> string.
Variable path_exists : string -> fs -> bool.
Variable load_json : string -> fs -> result (gmap string pyval).
Variable save_json : string -> gmap string pyval -> fs -> fs.
Variable dm_can_cache : option string -> config -> bool -> bool.
Variable dm_save : string -> dataset -> config -> gmap string pyval -> fs -> fs * dataset.

(** [get_cache_key]; [uuid] is the string [uuid.uuid1()] would give. *)
Definition get_cache_key (input_fname : option string) (config : config)
    (uuid : string) : string :=
  match input_fname with
  | None => uuid
  | Some f => calculate_checksum f config
  end.

(** [get_dataset]: [None] on a miss, otherwise the validity flag, the
    cached metadata and the three dataset paths. *)
Definition get_dataset (self : CacheManager) (input_fname : option string)
    (config : config) (uuid : string) (s : fs)
    : result (option (bool * gmap string pyval * string * string * string)) :=
  let key := get_cache_key input_fname config uuid in
  match get_cache_path self input_fname key (Some "meta") (Some "json") with
  | Raise e => Raise e
  | Ok training_set_metadata_fp =>
      if path_exists training_set_metadata_fp s then
        match load_json training_set_metadata_fp s with
        | Raise e => Raise e
        | Ok cache_training_set_metadata =>
            match get_cache_path self input_fname key None None with
            | Raise e => Raise e
            | Ok dataset_fp =>
                match get_cache_path self input_fname key (Some "test") None with
                | Raise e => Raise e
                | Ok test_fp =>
                    match get_cache_path self input_fname key (Some "val") None with
                    | Raise e => Raise e
                    | Ok val_fp =>
                        let valid :=
                          bool_decide (cache_training_set_metadata !! CHECKSUM
                                       = Some (VStr key))
                          && path_exists dataset_fp s in
                        Ok (Some (valid, cache_training_set_metadata,
                                  dataset_fp, test_fp, val_fp))
                    end
                end
            end
        end
      else Ok None
  end.

(** [self.save] of an optional split: [None] is passed through. *)
Definition save_split (path : result string) (split : option dataset) (config : config)
    (metadata : gmap string pyval) (s : fs) : fs * result (option dataset) :=
  match split with
  | None => (s, Ok None)
  | Some d =>
      match path with
      | Raise e => (s, Raise e)
      | Ok p => let '(s', d') := dm_save p d config metadata s in (s', Ok (Some d'))
      end
  end.

(** [put_dataset] on a file system [s]: the file system afterwards and
    the tuple returned, or the exception raised. *)
Definition put_dataset (self : CacheManager) (input_fname : option string)
    (config : config)
    (processed : dataset * option dataset * option dataset * gmap string pyval)
    (skip_save_processed_input : bool) (uuid : string) (s : fs)
    : fs * result (dataset * option dataset * option dataset * gmap string pyval) :=
  if negb (dm_can_cache input_fname config skip_save_processed_input)
  then (s, Ok processed)
  else
    let key := get_cache_key input_fname config uuid in
    let '(training_set, test_set, validation_set, training_set_metadata) := processed in
    match get_cache_path self input_fname key (Some "meta") (Some "json") with
    | Raise e => (s, Raise e)
    | Ok meta_fp =>
        let s1 := save_json meta_fp training_set_metadata s in
        match get_cache_path self input_fname key None None with
        | Raise e => (s1, Raise e)
        | Ok train_fp =>
            let '(s2, training_set') :=
              dm_save train_fp training_set config training_set_metadata s1 in
            match save_split (get_cache_path self input_fname key (Some "test") None)
                    test_set config training_set_metadata s2 with
            | (s3, Raise e) => (s3, Raise e)
            | (s3, Ok test_set') =>
                match save_split (get_cache_path self input_fname key (Some "val") None)
                        validation_set config training_set_metadata s3 with
                | (s4, Raise e) => (s4, Raise e)
                | (s4, Ok validation_set') =>
                    (s4, Ok (training_set', test_set', validation_set',
                             training_set_metadata))
                end
            end
        end
    end.

End Store.

(** *** A file system as a finite map *)

(** A file is JSON metadata or a stored dataset. *)
Inductive file : Type :=
  | JsonFile (content : gmap string pyval)
  | DataFile (rows : list Z).

Definition map_path_exists (p : string) (s : gmap string file) : bool :=
  bool_decide (is_Some (s !! p)).

Definition map_load_json (p : string) (s : gmap string file)
    : result (gmap string pyval) :=
  match s !! p with
  | Some (JsonFile m) => Ok m
  | _ => Raise ValueError
  end.

Definition map_save_json (p : string) (m : gmap string pyval) (s : gmap string file)
    : gmap string file :=
  <[p := JsonFile m]> s.

(** A dataset manager that writes the rows where it is told and returns
    them. *)
Definition map_save (p : string) (d : list Z) (_ : string) (_ : gmap string pyval)
    (s : gmap string file) : gmap string file * list Z :=
  (<[p := DataFile d]> s, d).

(** A checksum for the examples: configurations are named, and the name
    is the checksum. *)
Definition toy_checksum (f : string) (config : string) : string :=
  config.

(** A manager that caches whenever it is not told to skip. *)
Definition can_cache_unless_skipped (_ : option string) (_ : string) (skip : bool) : bool :=
  negb skip.

(** Metadata that carries the checksum of the configuration [c]. *)
Definition metadata_of (c : string) : gmap string pyval :=
  <["checksum" := VStr c]> (<["rows" := VInt 3]> ∅).

Definition hdf5_next_to_input : CacheManager :=
  {| data_format := "hdf5"; cache_dir := None |}.

Definition hdf5_in_cache : CacheManager :=
  {| data_format := "hdf5"; cache_dir := Some "/cache" |}.

(** The files left by caching [/data/train.csv] under configuration
    [A], without a cache directory. *)
Definition cached_for_A : gmap string file :=
  <["/data/meta.json" := JsonFile (metadata_of "A")]>
    (<["/data/train.hdf5" := DataFile [1; 2; 3]]> ∅).

End CacheStore.

(** ** [RayModelServer] *)

Section ModelServer.
Context {MC : ModelClass} {MV : MetricValue}.
Context {pkwargs part pargs preds : Type}.
Local Open Scope m_scope.

(** The routine [Predictor( **kwargs ).batch_predict]. *)
Variable predictor_batch_predict : pkwargs -> obj -> part -> pargs -> result preds.

(** The attributes [self.model], an object of the serving process, and
    [self.predictor], reduced to the arguments it was made from. *)
Record RayModelServer : Type := {
  server_model : nat;
  server_predictor : pkwargs
}.

(** [RayModelServer.__init__] *)
Definition RayModelServer_init (remote_model : RayRemoteModel) (predictor_kwargs : pkwargs)
    : M RayModelServer :=
  model <- load remote_model ;;
  ret {| server_model := model; server_predictor := predictor_kwargs |}.

(** [RayModelServer.batch_predict] *)
Definition RayModelServer_batch_predict (self : RayModelServer) (dataset : part)
    (a : pargs) : M preds :=
  model <- deref (server_model self) ;;
  lift (predictor_batch_predict (server_predictor self) model dataset a).

(** A sequence of requests to one server. *)
Definition serve (self : RayModelServer) (requests : list (part * pargs))
    : M (list preds) :=
  for_each (fun r => RayModelServer_batch_predict self r.1 r.2) requests.

End ModelServer.

(** * Properties *)

(** ** The bucketer *)

Module BucketerSpec.
Import Bucketer.

Lemma first_seen_snoc (l : list Z) (c : Z) :
  first_seen (l ++ [c]) = if decide (c ∈ l) then first_seen l else first_seen l ++ [c].
Proof.
  induction l as [|x l IH]; simpl.
  - done.
  - rewrite IH. destruct (decide (c = x)) as [->|Hne].
    + rewrite (decide_True (P := x ∈ x :: l)) by apply list_elem_of_here.
      destruct (decide (x ∈ l)); [done|].
      rewrite filter_app, filter_singleton_False, app_nil_r; auto.
    + destruct (decide (c ∈ l)) as [Hin|Hnin].
      * rewrite decide_True by (by apply list_elem_of_further). done.
      * rewrite decide_False by (rewrite elem_of_cons; intros [?|?]; done).
        rewrite filter_app, filter_singleton_True; auto.
Qed.

Lemma elem_of_first_seen (l : list Z) (k : Z) : k ∈ first_seen l ↔ k ∈ l.
Proof.
  induction l as [|x l IH]; simpl; [done|].
  rewrite !elem_of_cons, list_elem_of_filter, IH.
  destruct (decide (k = x)); intuition congruence.
Qed.

Lemma NoDup_first_seen (l : list Z) : NoDup (first_seen l).
Proof.
  induction l as [|x l IH]; simpl; constructor.
  - rewrite list_elem_of_filter. intros [Hne _]. by apply Hne.
  - by apply NoDup_filter.
Qed.

Lemma nodes_with_snoc key k l n :
  nodes_with key k (l ++ [n]) =
  nodes_with key k l ++ (if decide (get_count key n = k) then [n] else []).
Proof.
  unfold nodes_with. by rewrite filter_app.
Qed.

Lemma nodes_with_absent key k l :
  k ∉ map (get_count key) l -> nodes_with key k l = [].
Proof.
  intros Hk. unfold nodes_with. induction l as [|n l IH]; [done|].
  simpl in Hk. rewrite not_elem_of_cons in Hk. destruct Hk as [Hne Hk].
  rewrite filter_cons_False by congruence. auto.
Qed.

(** Appending to the bucket of [c], when every bucket is given by a
    function of its key. *)
Lemma bucket_append_map (g : Z -> list (gmap string Z)) c n ks :
  NoDup ks ->
  (c ∉ ks -> g c = []) ->
  bucket_append c n (map (fun k => (k, g k)) ks) =
  map (fun k => (k, g k ++ (if decide (c = k) then [n] else [])))
      (if decide (c ∈ ks) then ks else ks ++ [c]).
Proof.
  induction ks as [|k ks IH]; intros Hnd Hc; simpl.
  - rewrite decide_True by done. rewrite Hc by apply not_elem_of_nil. done.
  - apply NoDup_cons in Hnd as [Hk Hnd].
    destruct (decide (c = k)) as [->|Hne].
    + rewrite (decide_True (P := k ∈ k :: ks)) by apply list_elem_of_here.
      simpl. rewrite decide_True by done. f_equal.
      apply map_ext_in. intros k' Hk'. apply list_elem_of_In in Hk'.
      rewrite decide_False by (intros ->; done). by rewrite app_nil_r.
    + rewrite IH; [|done|].
      2:{ intros Hnot. apply Hc. rewrite elem_of_cons. intros [?|?]; done. }
      destruct (decide (c ∈ ks)) as [Hin|Hnin].
      * rewrite decide_True by (by apply list_elem_of_further).
        simpl. rewrite (decide_False (P := c = k)) by done. by rewrite app_nil_r.
      * rewrite decide_False by (rewrite elem_of_cons; intros [?|?]; done).
        simpl. rewrite (decide_False (P := c = k)) by done. by rewrite app_nil_r.
Qed.

(** The buckets are the distinct counts in first-seen order, each with
    the nodes of that count in report order. *)
Lemma make_buckets_spec key resources :
  make_buckets key resources =
  map (fun k => (k, nodes_with key k resources))
      (first_seen (map (get_count key) resources)).
Proof.
  induction resources as [|n l IH] using rev_ind; [done|].
  unfold make_buckets in *. rewrite foldl_snoc, IH.
  rewrite bucket_append_map.
  - rewrite map_app. simpl. rewrite first_seen_snoc.
    assert (Heq : forall k, (k, nodes_with key k l ++
                (if decide (get_count key n = k) then [n] else [])) =
              (k, nodes_with key k (l ++ [n]))).
    { intros k. by rewrite nodes_with_snoc. }
    destruct (decide (get_count key n ∈ first_seen _)) as [Hin|Hnin];
      rewrite elem_of_first_seen in *.
    + rewrite decide_True by done. apply map_ext, Heq.
    + rewrite decide_False by done. apply map_ext, Heq.
  - apply NoDup_first_seen.
  - intros Hc. apply nodes_with_absent. by rewrite <- elem_of_first_seen.
Qed.

(** [max] returns an item of the sequence that no item exceeds and that
    every earlier item is strictly below. *)
Lemma py_max_from_spec {A} (f : A -> Z) (best : A) (l : list A) :
  exists i : nat,
    (best :: l) !! i = Some (py_max_from f best l) /\
    (forall y, y ∈ best :: l -> f y <= f (py_max_from f best l)) /\
    (forall (j : nat) y, (j < i)%nat -> (best :: l) !! j = Some y ->
       f y < f (py_max_from f best l)).
Proof.
  revert best. induction l as [|x l IH]; intros best; simpl.
  - exists 0%nat. split; [done|]. split.
    + intros y Hy. apply list_elem_of_singleton in Hy as ->. lia.
    + intros j y Hj. lia.
  - destruct (decide (f best < f x)) as [Hlt|Hge].
    + destruct (IH x) as (i & Hi & Hmax & Hfirst).
      exists (S i). split; [done|]. split.
      * intros y Hy. apply elem_of_cons in Hy as [->|Hy]; [|by apply Hmax].
        specialize (Hmax x (list_elem_of_here _ _)). lia.
      * intros [|j] y Hj Hy; simpl in Hy.
        -- injection Hy as <-. specialize (Hmax x (list_elem_of_here _ _)). lia.
        -- apply (Hfirst j); [lia|done].
    + destruct (IH best) as (i & Hi & Hmax & Hfirst).
      assert (Hx : f x <= f (py_max_from f best l)).
      { specialize (Hmax best (list_elem_of_here _ _)). lia. }
      destruct i as [|i].
      * exists 0%nat. split; [done|]. split; [|intros; lia].
        intros y Hy. rewrite !elem_of_cons in Hy.
        destruct Hy as [->|[->|Hy]]; [apply Hmax, list_elem_of_here|done|].
        by apply Hmax, list_elem_of_further.
      * exists (S (S i)). split; [done|]. split.
        -- intros y Hy. rewrite !elem_of_cons in Hy.
           destruct Hy as [->|[->|Hy]]; [apply Hmax, list_elem_of_here|done|].
           by apply Hmax, list_elem_of_further.
        -- intros [|[|j]] y Hj Hy; simpl in Hy.
           ++ apply (Hfirst 0%nat); [lia|done].
           ++ injection Hy as <-.
              assert (f best < f (py_max_from f best l)); [|lia].
              apply (Hfirst 0%nat); [lia|done].
           ++ apply (Hfirst (S j)); [lia|done].
Qed.



Lemma make_buckets_nonempty key (resources : list (gmap string Z)) :
  resources ≠ [] -> make_buckets key resources ≠ [].
Proof.
  intros Hne. rewrite make_buckets_spec.
  destruct resources as [|n l]; [done|]. discriminate.
Qed.



End BucketerSpec.

(** ** The world: what each operation leaves alone *)

Section Frames.
Context {MC : ModelClass} {MV : MetricValue}.

Lemma keeps_ret {A} (P : world -> world -> Prop) `{!Reflexive P} (a : A) :
  keeps P (ret a).
Proof. intros w. simpl. reflexivity. Qed.

Lemma keeps_raise {A} (P : world -> world -> Prop) `{!Reflexive P} e :
  keeps P (raise (A := A) e).
Proof. intros w. simpl. reflexivity. Qed.

Lemma keeps_lift {A} (P : world -> world -> Prop) `{!Reflexive P} (r : result A) :
  keeps P (lift r).
Proof. intros w. simpl. reflexivity. Qed.

Lemma keeps_bind {A B} (P : world -> world -> Prop) `{!Transitive P}
    (m : M A) (k : A -> M B) :
  keeps P m -> (forall a, keeps P (k a)) -> keeps P (bind m k).
Proof.
  intros Hm Hk w. unfold bind. specialize (Hm w).
  destruct (m w) as [w1 [a|e]]; simpl in *; [|done].
  etrans; [exact Hm|apply Hk].
Qed.

Lemma keeps_for_each {A B} (P : world -> world -> Prop) `{!PreOrder P}
    (f : A -> M B) (l : list A) :
  (forall x, keeps P (f x)) -> keeps P (for_each f l).
Proof.
  intros Hf. induction l as [|x l IH]; simpl.
  - apply keeps_ret; apply _.
  - apply keeps_bind; [apply _|apply Hf|]. intros y.
    apply keeps_bind; [apply _|apply IH|]. intros ys. apply keeps_ret; apply _.
Qed.

Global Instance same_heap_preorder : PreOrder same_heap.
Proof. split; unfold same_heap; [done|]. intros x y z H1 H2. congruence. Qed.

Global Instance no_put_preorder : PreOrder no_put.
Proof.
  split; unfold no_put; [done|]. intros x y z [H1 H1'] [H2 H2']. split; congruence.
Qed.

Lemma put_count_snoc tr e :
  put_count (tr ++ [e]) = (put_count tr + (if is_put e then 1 else 0))%nat.
Proof.
  unfold put_count. rewrite filter_app, length_app. f_equal.
  by destruct e.
Qed.

Lemma load_value_unfold (h : RayRemoteModel) (w : world) :
  load_value h w =
  match store w !! rm_state h with
  | Some s => (log (EvGet (rm_state h)) w, Ok (py_setstate (py_new (rm_cls h) (rm_args h)) s))
  | None => (w, Raise HandleExpired)
  end.
Proof.
  unfold load_value, bind, ray_get, ret. by destruct (store w !! rm_state h).
Qed.

Lemma load_value_same_heap h : keeps same_heap (load_value h).
Proof.
  intros w. rewrite load_value_unfold. by destruct (store w !! rm_state h).
Qed.

Lemma load_value_no_put h : keeps no_put (load_value h).
Proof.
  intros w. rewrite load_value_unfold.
  destruct (store w !! rm_state h); [|done].
  split; [done|]. cbn -[put_count]. rewrite put_count_snoc. simpl. lia.
Qed.

Lemma RayRemoteModel_init_unfold (model : nat) (w : world) :
  RayRemoteModel_init model w =
  match heap w !! model with
  | Some m => (captured w m, Ok (handle_of w m))
  | None => (w, Raise TypeError)
  end.
Proof.
  unfold RayRemoteModel_init, bind, deref.
  destruct (heap w !! model) as [m|]; [|done].
  unfold captured, handle_of. by destruct (py_reduce m) as [[c a] s].
Qed.

Lemma RayRemoteModel_init_inv (model : nat) (w w1 : world) h :
  RayRemoteModel_init model w = (w1, Ok h) ->
  exists m, heap w !! model = Some m /\ w1 = captured w m /\ h = handle_of w m.
Proof.
  rewrite RayRemoteModel_init_unfold.
  destruct (heap w !! model) as [m|]; [|discriminate].
  intros [= <- <-]. eauto.
Qed.

Lemma RayRemoteModel_init_same_heap model : keeps same_heap (RayRemoteModel_init model).
Proof.
  intros w. rewrite RayRemoteModel_init_unfold. by destruct (heap w !! model).
Qed.

Lemma captured_lookup (w : world) (m : obj) :
  store (captured w m) !! rm_state (handle_of w m) = Some (py_reduce m).2.
Proof. simpl. by rewrite lookup_app_r, Nat.sub_diag. Qed.

Lemma load_unfold (h : RayRemoteModel) (w : world) :
  load h w =
  match store w !! rm_state h with
  | Some s =>
      let l := fresh (dom (heap w)) in
      (set_heap (<[l := py_setstate (py_new (rm_cls h) (rm_args h)) s]> (heap w))
         (log (EvGet (rm_state h)) w), Ok l)
  | None => (w, Raise HandleExpired)
  end.
Proof.
  unfold load, bind. rewrite load_value_unfold.
  by destruct (store w !! rm_state h).
Qed.

(** Loading [n] times from a world that still holds the blob of [h]:
    [n] new, pairwise distinct objects, each the restored one, and no
    change to the objects that existed. *)
Lemma load_many_spec (h : RayRemoteModel) (s : state) (n : nat) (w : world) :
  store w !! rm_state h = Some s ->
  exists w' ls,
    load_many n h w = (w', Ok ls) /\ length ls = n /\ NoDup ls /\
    (forall l, l ∈ ls -> (l ∉ dom (heap w)) /\
       heap w' !! l = Some (py_setstate (py_new (rm_cls h) (rm_args h)) s)) /\
    (forall l, l ∈ dom (heap w) -> heap w' !! l = heap w !! l) /\
    store w' = store w.
Proof.
  revert w. induction n as [|n IH]; intros w Hs; simpl.
  - exists w, []. split; [done|]. split; [done|]. split; [apply NoDup_nil_2|].
    split; [|done]. intros l Hl. by apply not_elem_of_nil in Hl.
  - unfold bind at 1. rewrite load_unfold, Hs. cbv zeta.
    set (l := fresh (dom (heap w))).
    set (o := py_setstate (py_new (rm_cls h) (rm_args h)) s).
    set (w1 := set_heap _ _).
    assert (Hl : l ∉ dom (heap w)) by apply is_fresh.
    assert (Hdom : dom (heap w1) = {[l]} ∪ dom (heap w)) by apply dom_insert_L.
    destruct (IH w1 Hs) as (w' & ls & Hrun & Hlen & Hnd & Hnew & Hold & Hst).
    exists w', (l :: ls). unfold bind. rewrite Hrun. simpl.
    split; [done|]. split; [by rewrite Hlen|]. split.
    { constructor; [|done]. intros Hin. destruct (Hnew l Hin) as [Hnot _].
      apply Hnot. rewrite Hdom. by apply elem_of_union_l, elem_of_singleton. }
    split; [|split; [|done]].
    + intros l' Hl'. apply elem_of_cons in Hl' as [->|Hl'].
      * split; [done|].
        rewrite Hold by (rewrite Hdom; by apply elem_of_union_l, elem_of_singleton).
        apply lookup_insert_eq.
      * destruct (Hnew l' Hl') as [Hnot Hres]. split; [|done].
        intros Hin. apply Hnot. rewrite Hdom. by apply elem_of_union_r.
    + intros l' Hl'. rewrite Hold by (rewrite Hdom; by apply elem_of_union_r).
      simpl. apply lookup_insert_ne. intros ->. done.
Qed.

(** C3: a model captured into a handle is restored by [load]: however
    many times the handle is loaded, and whatever has happened to the
    driver's objects since the capture, every load gives a new object,
    different from all existing ones and from the other loaded ones,
    whose reduced form (class, constructor arguments, state) is that of
    the model when it was captured. *)
Theorem load_restores_captured_state `{!ModelLaws MC}
    (w : world) (model : nat) (m : obj) (n : nat) :
  heap w !! model = Some m ->
  exists h w1,
    RayRemoteModel_init model w = (w1, Ok h) /\
    forall w2, store w1 `prefix_of` store w2 ->
      exists w3 ls,
        load_many n h w2 = (w3, Ok ls) /\ length ls = n /\ NoDup ls /\
        (forall l, l ∈ ls ->
           (l ∉ dom (heap w2)) /\
           exists o, heap w3 !! l = Some o /\ py_reduce o = py_reduce m) /\
        (forall l, l ∈ dom (heap w2) -> heap w3 !! l = heap w2 !! l).
Proof.
  intros Hm. exists (handle_of w m), (captured w m).
  rewrite RayRemoteModel_init_unfold, Hm. split; [done|].
  intros w2 Hpre.
  assert (Hs : store w2 !! rm_state (handle_of w m) = Some (py_reduce m).2).
  { eapply prefix_lookup_Some; [apply captured_lookup|done]. }
  destruct (load_many_spec _ _ n w2 Hs) as (w3 & ls & Hrun & Hlen & Hnd & Hnew & Hold & _).
  exists w3, ls. split; [done|]. split; [done|]. split; [done|]. split; [|done].
  intros l Hl. destruct (Hnew l Hl) as [Hfresh Hres]. split; [done|].
  eexists. split; [exact Hres|].
  simpl. destruct (py_reduce m) as [[c a] s] eqn:Hred. simpl.
  by apply (reduce_restore m).
Qed.

End Frames.

(** ** Training *)

Section TrainerSpec.
Context {MC : ModelClass} {MV : MetricValue}.
Context {targs stats : Type}.

Local Abbreviation trainer := (@RemoteTrainer MC targs stats).

Lemma train_fn_same_heap (h : RayRemoteModel) (a : targs) (t : trainer) :
  keeps same_heap (train_fn h a t).
Proof.
  apply keeps_bind; [apply _|apply load_value_same_heap|].
  intros m. apply keeps_lift; apply _.
Qed.

Lemma train_online_fn_same_heap (h : RayRemoteModel) (a : targs)
    (t : trainer) :
  keeps same_heap (train_online_fn h a t).
Proof.
  apply keeps_bind; [apply _|apply load_value_same_heap|].
  intros m. apply keeps_lift; apply _.
Qed.

(** Between the capture and the end of [execute] the driver's objects
    do not change. *)
Lemma dispatch_same_heap {A} (model : nat) (ws : list trainer)
    (fn : RayRemoteModel -> trainer -> M A) (w w1 w2 : world) h (r : result (list A)) :
  (forall t, keeps same_heap (fn h t)) ->
  RayRemoteModel_init model w = (w1, Ok h) ->
  execute ws (fn h) w1 = (w2, r) ->
  heap w2 = heap w.
Proof.
  intros Hfn Hinit Hexec.
  pose proof (RayRemoteModel_init_same_heap model w) as H1.
  pose proof (keeps_for_each same_heap (fn h) ws Hfn w1) as H2.
  unfold execute in Hexec. rewrite Hinit in H1. rewrite Hexec in H2.
  unfold same_heap in *. simpl in *. congruence.
Qed.

(** C1: when the dispatch of [train] returns its list of results, the
    weights of the first result are written into the caller's model
    object, in place, and the call returns that same object with the
    statistics of the first result; the results of the other workers play
    no part. *)
Theorem train_takes_first_worker `{!ModelLaws MC}
    (self : @RayTrainer MC targs stats) (model : nat) (a : targs) (w w1 w2 : world)
    (h : RayRemoteModel) (w0 : weights) (st : stats)
    (rest : list (option (weights * stats))) :
  RayRemoteModel_init model w = (w1, Ok h) ->
  execute (executor_workers self) (train_fn h a) w1 = (w2, Ok (Some (w0, st) :: rest)) ->
  exists m w3,
    heap w !! model = Some m /\
    train self model a w = (w3, Ok (model, st)) /\
    heap w3 = <[model := set_weights m w0]> (heap w) /\
    get_weights <$> heap w3 !! model = Some w0.
Proof.
  intros Hinit Hexec.
  pose proof (dispatch_same_heap model _ (fun h => train_fn h a) w w1 w2 h _
                (fun t => train_fn_same_heap h a t) Hinit Hexec) as Hheap.
  destruct (RayRemoteModel_init_inv _ _ _ _ Hinit) as (m & Hm & _ & _).
  exists m, (set_heap (<[model := set_weights m w0]> (heap w2)) w2).
  split; [done|]. split.
  - unfold train, bind. rewrite Hinit, Hexec. unfold deref. rewrite Hheap, Hm.
    unfold assign, ret. by rewrite Hheap.
  - simpl. rewrite Hheap. split; [done|].
    rewrite lookup_insert_eq. simpl. by rewrite (get_set_weights m).
Qed.

(** C5, training part: when [execute] raises, so does the call, with the
    same exception, and no object of the driver has changed. *)
Lemma train_failure (self : @RayTrainer MC targs stats) (model : nat) (a : targs) (w w1 w2 : world)
    (h : RayRemoteModel) (e : exn) :
  RayRemoteModel_init model w = (w1, Ok h) ->
  execute (executor_workers self) (train_fn h a) w1 = (w2, Raise e) ->
  train self model a w = (w2, Raise e) /\ heap w2 = heap w.
Proof.
  intros Hinit Hexec. split.
  - unfold train, bind. by rewrite Hinit, Hexec.
  - exact (dispatch_same_heap model _ (fun h => train_fn h a) w w1 w2 h _
             (fun t => train_fn_same_heap h a t) Hinit Hexec).
Qed.

Lemma train_online_failure (self : @RayTrainer MC targs stats) (model : nat) (a : targs)
    (w w1 w2 : world) (h : RayRemoteModel) (e : exn) :
  RayRemoteModel_init model w = (w1, Ok h) ->
  execute (executor_workers self) (train_online_fn h a) w1 = (w2, Raise e) ->
  train_online self model a w = (w2, Raise e) /\ heap w2 = heap w.
Proof.
  intros Hinit Hexec. split.
  - unfold train_online, bind. by rewrite Hinit, Hexec.
  - exact (dispatch_same_heap model _ (fun h => train_online_fn h a) w w1 w2 h _
             (fun t => train_online_fn_same_heap h a t) Hinit Hexec).
Qed.

(** A raising call stops a comprehension with its exception. *)
Lemma for_each_raise {A B} (f : A -> M B) (l1 l2 : list A) (x : A)
    (w w1 w2 : world) (ys : list B) (e : exn) :
  for_each f l1 w = (w1, Ok ys) ->
  f x w1 = (w2, Raise e) ->
  for_each f (l1 ++ x :: l2) w = (w2, Raise e).
Proof.
  revert w ys. induction l1 as [|y l1 IH]; intros w ys Hl1 Hx; simpl in *.
  - injection Hl1 as <- _. unfold bind. by rewrite Hx.
  - unfold bind in *. destruct (f y w) as [wy [b|e']]; [|discriminate].
    destruct (for_each f l1 wy) as [wl [bs|e']] eqn:Hrest; [|discriminate].
    injection Hl1 as <- _. by rewrite (IH wy bs Hrest Hx).
Qed.

End TrainerSpec.

(** ** Closures that load a handle *)

Section Dispatch.
Context {MC : ModelClass} {MV : MetricValue}.

(** The object a handle restores from the blob [s]. *)
Local Abbreviation restored h s := (py_setstate (py_new (rm_cls h) (rm_args h)) s).

Lemma for_each_cons {A B} (f : A -> M B) (x : A) (l : list A) (w : world) :
  for_each f (x :: l) w =
  match f x w with
  | (w', Ok y) =>
      match for_each f l w' with
      | (w'', Ok ys) => (w'', Ok (y :: ys))
      | (w'', Raise e) => (w'', Raise e)
      end
  | (w', Raise e) => (w', Raise e)
  end.
Proof.
  cbn [for_each]. unfold bind, ret.
  destruct (f x w) as [w' [y|e]]; [|done].
  by destruct (for_each f l w') as [w'' [ys|e]].
Qed.

Lemma load_then_run {A} (run : obj -> result A) (h : RayRemoteModel) (s : state)
    (w : world) :
  store w !! rm_state h = Some s ->
  bind (load_value h) (fun m => lift (run m)) w =
  (log (EvGet (rm_state h)) w, run (restored h s)).
Proof. intros Hs. unfold bind. by rewrite load_value_unfold, Hs. Qed.

(** Running a closure that loads the handle [h] on the workers [ws],
    from a world that holds the blob of [h]: one fetch per worker that
    ran, and the results of the workers on the restored object, up to the
    first one that raises. *)
Lemma dispatch_spec {T A} (run : T -> obj -> result A)
    (h : RayRemoteModel) (s : state) (ws : list T) (w : world) :
  store w !! rm_state h = Some s ->
  exists k : nat,
    (k <= length ws)%nat /\
    (for_each (fun t => bind (load_value h) (fun m => lift (run t m))) ws w).1 =
      World (heap w) (store w) (actors w) (trace w ++ replicate k (EvGet (rm_state h))) /\
    match (for_each (fun t => bind (load_value h) (fun m => lift (run t m))) ws w).2 with
    | Ok results =>
        k = length ws /\
        Forall2 (fun t r => run t (restored h s) = Ok r) ws results
    | Raise e =>
        exists k' t, k = S k' /\ ws !! k' = Some t /\ run t (restored h s) = Raise e
    end.
Proof.
  revert w. induction ws as [|t ws IH]; intros w Hs.
  - exists 0%nat. cbn [for_each length replicate]. unfold ret. cbn [fst snd].
    split; [lia|]. split.
    + rewrite app_nil_r. by destruct w.
    + split; [done|constructor].
  - rewrite for_each_cons, (load_then_run (run t) h s w Hs).
    destruct (run t (restored h s)) as [r|e] eqn:Hrun.
    + destruct (IH (log (EvGet (rm_state h)) w) Hs) as (k & Hk & Hw & Hres).
      exists (S k). split; [simpl; lia|].
      destruct (for_each _ ws (log (EvGet (rm_state h)) w)) as [w' [rs|e]];
        cbn [fst snd] in *.
      * split; [rewrite Hw; simpl; by rewrite <- app_assoc|].
        destruct Hres as [-> HF]. split; [done|]. by constructor.
      * split; [rewrite Hw; simpl; by rewrite <- app_assoc|].
        destruct Hres as (k' & t' & -> & Ht' & Hrun').
        exists (S k'), t'. done.
    + exists 1%nat. cbn [fst snd]. split; [simpl; lia|]. split; [done|].
      exists 0%nat, t. done.
Qed.

Lemma filter_put_gets (n r : nat) : filter is_put (replicate n (EvGet r)) = [].
Proof. induction n as [|n IH]; [done|exact IH]. Qed.

Lemma dispatch_all_ok {T A} (run : T -> obj -> result A)
    (h : RayRemoteModel) (s : state) (ws : list T) (results : list A) (w : world) :
  store w !! rm_state h = Some s ->
  Forall2 (fun t r => run t (restored h s) = Ok r) ws results ->
  (for_each (fun t => bind (load_value h) (fun m => lift (run t m))) ws w).2 = Ok results.
Proof.
  intros Hs HF. revert w Hs. induction HF as [|t r ws rs Hrun _ IH]; intros w Hs.
  - done.
  - rewrite for_each_cons, (load_then_run (run t) h s w Hs), Hrun.
    specialize (IH (log (EvGet (rm_state h)) w) Hs).
    destruct (for_each _ ws (log (EvGet (rm_state h)) w)) as [w' [rs'|e]];
      simpl in *; congruence.
Qed.

Lemma for_each_map {A B C} (f : B -> M C) (g : A -> B) (l : list A) (w : world) :
  for_each f (map g l) w = for_each (fun x => f (g x)) l w.
Proof.
  revert w. induction l as [|x l IH]; intros w; [done|].
  simpl map. rewrite !for_each_cons. destruct (f (g x) w) as [w' [y|e]]; [|done].
  by rewrite IH.
Qed.

Lemma get_refs_app (tr tr' : list event) :
  get_refs (tr ++ tr') = get_refs tr ++ get_refs tr'.
Proof. apply omap_app. Qed.

Lemma get_refs_gets (n r : nat) : get_refs (replicate n (EvGet r)) = replicate n r.
Proof. induction n as [|n IH]; [done|]. simpl. by rewrite <- IH. Qed.

End Dispatch.

(** ** Inference *)

Section PredictorSpec.
Context {MC : ModelClass} {MV : MetricValue}.
Context {pkwargs part pargs preds : Type}.
Variable predictor_batch_predict : pkwargs -> obj -> part -> pargs -> result preds.
Variable predictor_batch_evaluation :
  pkwargs -> obj -> part -> pargs -> result (metrics * preds).
Context {targs stats : Type}.

Local Abbreviation predict_partition := (batch_predict_partition predictor_batch_predict).
Local Abbreviation evaluate_partition := (batch_evaluate_partition predictor_batch_evaluation).
Local Abbreviation compute_p := (compute_predictions predictor_batch_predict).
Local Abbreviation compute_e := (compute_evaluations predictor_batch_evaluation).

(** The object a handle restores from the blob [s], and what the
    routines return on it for the tasks of an environment. *)
Local Abbreviation restored h s := (py_setstate (py_new (rm_cls h) (rm_args h)) s).
Local Abbreviation evaluation_of env s p :=
  (predictor_batch_evaluation (ee_predictor_kwargs env)
     (restored (ee_remote_model env) s) p (ee_args env)).

(** An evaluation task that reports its partition index with its
    predictions. *)
Local Abbreviation indexed_task env :=
  (fun ip : nat * part => bind (evaluate_partition env ip.2) (fun r => ret (ip.1, r))).

Lemma remote_add_metrics_same_heap a (m : metrics) : keeps same_heap (remote_add_metrics a m).
Proof. intros w. unfold remote_add_metrics. by destruct (actors w !! a). Qed.

Lemma remote_add_metrics_no_put a (m : metrics) : keeps no_put (remote_add_metrics a m).
Proof.
  intros w. unfold remote_add_metrics. destruct (actors w !! a); [|done].
  split; [done|]. cbn -[put_count]. rewrite put_count_snoc. simpl. lia.
Qed.

Lemma predict_partition_keeps (P : world -> world -> Prop) `{!PreOrder P} env (p : part) :
  (forall h, keeps P (load_value h)) ->
  keeps P (predict_partition env p).
Proof.
  intros Hload. apply keeps_bind; [apply _|apply Hload|].
  intros m. apply keeps_lift; apply _.
Qed.

Lemma evaluate_partition_keeps (P : world -> world -> Prop) `{!PreOrder P} env (p : part) :
  (forall h, keeps P (load_value h)) ->
  (forall a m, keeps P (remote_add_metrics a m)) ->
  keeps P (evaluate_partition env p).
Proof.
  intros Hload Hadd. apply keeps_bind; [apply _|apply Hload|].
  intros m. apply keeps_bind; [apply _|apply keeps_lift; apply _|].
  intros r. apply keeps_bind; [apply _|apply Hadd|].
  intros _. apply keeps_ret; apply _.
Qed.

Lemma compute_predictions_same_heap tasks : keeps same_heap (compute_p tasks).
Proof.
  apply keeps_for_each; [apply _|]. intros t.
  apply predict_partition_keeps; [apply _|apply load_value_same_heap].
Qed.

Lemma compute_predictions_no_put tasks : keeps no_put (compute_p tasks).
Proof.
  apply keeps_for_each; [apply _|]. intros t.
  apply predict_partition_keeps; [apply _|apply load_value_no_put].
Qed.

Lemma compute_evaluations_same_heap arrival tasks :
  keeps same_heap (compute_e arrival tasks).
Proof.
  apply keeps_bind; [apply _| |intros results; apply keeps_ret; apply _].
  apply keeps_for_each; [apply _|]. intros it.
  apply keeps_bind; [apply _| |intros r; apply keeps_ret; apply _].
  apply evaluate_partition_keeps;
    [apply _|apply load_value_same_heap|apply remote_add_metrics_same_heap].
Qed.

Lemma compute_evaluations_no_put arrival tasks : keeps no_put (compute_e arrival tasks).
Proof.
  apply keeps_bind; [apply _| |intros results; apply keeps_ret; apply _].
  apply keeps_for_each; [apply _|]. intros it.
  apply keeps_bind; [apply _| |intros r; apply keeps_ret; apply _].
  apply evaluate_partition_keeps;
    [apply _|apply load_value_no_put|apply remote_add_metrics_no_put].
Qed.

(** One evaluation task, from a world that holds the blob of the handle
    and the collector: a fetch, and then either the metrics of the
    partition appended to the collector's list, or the routine's
    exception. *)
Lemma evaluate_partition_unfold env (p : part) (w : world) (s : state)
    (received : list metrics) :
  store w !! rm_state (ee_remote_model env) = Some s ->
  actors w !! ee_metric_collector env = Some received ->
  evaluate_partition env p w =
  match evaluation_of env s p with
  | Ok r =>
      (log (EvAddMetrics (ee_metric_collector env))
         (set_actors (<[ee_metric_collector env := received ++ [r.1]]> (actors w))
            (log (EvGet (rm_state (ee_remote_model env))) w)),
       Ok r.2)
  | Raise e => (log (EvGet (rm_state (ee_remote_model env))) w, Raise e)
  end.
Proof.
  intros Hs Ha. unfold batch_evaluate_partition, bind at 1.
  rewrite load_value_unfold, Hs. unfold bind at 1, lift.
  destruct (evaluation_of env s p) as [r|e]; [|done].
  unfold bind, remote_add_metrics. cbn [actors log]. rewrite Ha. done.
Qed.

Lemma indexed_task_unfold env (ip : nat * part) (w : world) (s : state)
    (received : list metrics) :
  store w !! rm_state (ee_remote_model env) = Some s ->
  actors w !! ee_metric_collector env = Some received ->
  bind (evaluate_partition env ip.2) (fun r => ret (ip.1, r)) w =
  match evaluation_of env s ip.2 with
  | Ok r =>
      (log (EvAddMetrics (ee_metric_collector env))
         (set_actors (<[ee_metric_collector env := received ++ [r.1]]> (actors w))
            (log (EvGet (rm_state (ee_remote_model env))) w)),
       Ok (ip.1, r.2))
  | Raise e => (log (EvGet (rm_state (ee_remote_model env))) w, Raise e)
  end.
Proof.
  intros Hs Ha. unfold bind at 1.
  rewrite (evaluate_partition_unfold env ip.2 w s received Hs Ha).
  by destruct (evaluation_of env s ip.2).
Qed.

(** The tasks that an arrival order names. *)
Lemma scheduled_fmap {T U} (f : T -> U) (tasks : list T) (arrival : list nat) :
  scheduled (map f tasks) arrival = map (fun it => (it.1, f it.2)) (scheduled tasks arrival).
Proof.
  unfold scheduled. induction arrival as [|i arrival IH]; [done|].
  cbn [omap list_omap]. rewrite list_lookup_fmap.
  destruct (tasks !! i) as [t|]; simpl; by rewrite IH.
Qed.

Lemma scheduled_lookup {T} (tasks : list T) (arrival : list nat) (it : nat * T) :
  it ∈ scheduled tasks arrival -> it.1 ∈ arrival /\ tasks !! it.1 = Some it.2.
Proof.
  unfold scheduled. rewrite list_elem_of_omap. intros (i & Hi & Hit).
  destruct (tasks !! i) as [t|] eqn:Ht; [|discriminate].
  injection Hit as <-. done.
Qed.

Lemma scheduled_in_range {T} (tasks : list T) (arrival : list nat) :
  Forall (fun i => (i < length tasks)%nat) arrival ->
  map fst (scheduled tasks arrival) = arrival.
Proof.
  unfold scheduled. induction 1 as [|i arrival Hi _ IH]; [done|].
  cbn [omap list_omap]. apply lookup_lt_is_Some_2 in Hi as [t Ht].
  rewrite Ht. simpl. by rewrite IH.
Qed.

Lemma permutation_in_range (n : nat) (arrival : list nat) :
  arrival ≡ₚ seq 0 n -> Forall (fun i => (i < n)%nat) arrival.
Proof.
  intros Hp. apply Forall_forall. intros i Hi. rewrite Hp in Hi.
  apply elem_of_seq in Hi. lia.
Qed.

(** The run of the evaluation tasks of one environment on the indexed
    partitions [ips], one after the other: the tasks that succeeded have
    appended their metrics to the collector, in that order, every task
    that ran has fetched the blob of the handle, and the first task whose
    routine raises ends the run. *)
Lemma evaluation_run_spec env (s : state) (ips : list (nat * part)) (w : world)
    (received : list metrics) :
  store w !! rm_state (ee_remote_model env) = Some s ->
  actors w !! ee_metric_collector env = Some received ->
  exists outs : list (metrics * preds),
    Forall2 (fun ip o => evaluation_of env s ip.2 = Ok o) (take (length outs) ips) outs /\
    heap (for_each (indexed_task env) ips w).1 = heap w /\
    store (for_each (indexed_task env) ips w).1 = store w /\
    actors (for_each (indexed_task env) ips w).1 =
      <[ee_metric_collector env := received ++ map fst outs]> (actors w) /\
    put_count (trace (for_each (indexed_task env) ips w).1) = put_count (trace w) /\
    match (for_each (indexed_task env) ips w).2 with
    | Ok results =>
        length outs = length ips /\
        results = zip (map fst ips) (map snd outs) /\
        get_refs (trace (for_each (indexed_task env) ips w).1) =
          get_refs (trace w) ++ replicate (length ips) (rm_state (ee_remote_model env))
    | Raise e =>
        (exists ip, ips !! length outs = Some ip /\ evaluation_of env s ip.2 = Raise e) /\
        get_refs (trace (for_each (indexed_task env) ips w).1) =
          get_refs (trace w) ++ replicate (S (length outs)) (rm_state (ee_remote_model env))
    end.
Proof.
  revert w received. induction ips as [|ip ips IH]; intros w received Hs Ha.
  - exists []. cbn [for_each]. unfold ret. cbn [fst snd length take map zip zip_with].
    rewrite !app_nil_r, list_insert_id by done. by repeat split.
  - rewrite for_each_cons, (indexed_task_unfold env ip w s received Hs Ha).
    destruct (evaluation_of env s ip.2) as [o|e] eqn:Hout.
    + set (w1 := log (EvAddMetrics _) _).
      assert (Ha1 : actors w1 !! ee_metric_collector env = Some (received ++ [o.1])).
      { apply list_lookup_insert_eq. by eapply lookup_lt_Some. }
      destruct (IH w1 (received ++ [o.1]) Hs Ha1)
        as (outs & HF & Hheap & Hstore & Hact & Hput & Hres).
      exists (o :: outs).
      destruct (for_each (indexed_task env) ips w1) as [w2 [results|e]];
        cbn [fst snd length take map] in *.
      * destruct Hres as (Hlen & -> & Hget).
        split; [by constructor|]. split; [by rewrite Hheap|]. split; [by rewrite Hstore|].
        split; [rewrite Hact; unfold w1; cbn [actors log set_actors];
                rewrite list_insert_insert_eq, <- app_assoc; done|].
        split.
        { rewrite Hput. unfold w1. cbn -[put_count]. rewrite !put_count_snoc. simpl. lia. }
        split; [by rewrite Hlen|]. split; [done|].
        rewrite Hget. unfold w1. cbn [trace log set_actors].
        rewrite !get_refs_app. simpl. by rewrite app_nil_r, <- app_assoc.
      * destruct Hres as ((ip' & Hip' & Hraise) & Hget).
        split; [by constructor|]. split; [by rewrite Hheap|]. split; [by rewrite Hstore|].
        split; [rewrite Hact; unfold w1; cbn [actors log set_actors];
                rewrite list_insert_insert_eq, <- app_assoc; done|].
        split.
        { rewrite Hput. unfold w1. cbn -[put_count]. rewrite !put_count_snoc. simpl. lia. }
        split; [by exists ip'|].
        rewrite Hget. unfold w1. cbn [trace log set_actors].
        rewrite !get_refs_app. simpl. by rewrite app_nil_r, <- app_assoc.
    + exists []. cbn [fst snd length take map].
      rewrite app_nil_r, list_insert_id by done.
      split; [constructor|]. split; [done|]. split; [done|]. split; [done|].
      split; [cbn -[put_count]; rewrite put_count_snoc; simpl; lia|].
      split; [by exists ip|].
      cbn [trace log]. by rewrite get_refs_app.
Qed.

(** Forcing the tasks of one environment is the run of the tasks that
    the arrival order names, and the results put back by partition. *)
Lemma compute_evaluations_unfold env (dataset : list part) (arrival : list nat) (w : world) :
  compute_e arrival (map (pair env) dataset) w =
  match for_each (indexed_task env) (scheduled dataset arrival) w with
  | (w', Ok results) => (w', Ok (in_partition_order (length dataset) results))
  | (w', Raise e) => (w', Raise e)
  end.
Proof.
  unfold compute_evaluations, bind at 1.
  rewrite scheduled_fmap, for_each_map, length_map. cbn [fst snd].
  by destruct (for_each (indexed_task env) (scheduled dataset arrival) w) as [w' [results|e]].
Qed.

(** The result filed under the index of a partition is the routine's on
    that partition. *)
Lemma results_by_partition env (s : state) (dataset : list part) (ips : list (nat * part))
    (outs : list (metrics * preds)) (j : nat) (p : part) :
  (forall ip, ip ∈ ips -> dataset !! ip.1 = Some ip.2) ->
  Forall2 (fun ip o => evaluation_of env s ip.2 = Ok o) ips outs ->
  j ∈ map fst ips ->
  dataset !! j = Some p ->
  exists o, evaluation_of env s p = Ok o /\
            (list_to_map (zip (map fst ips) (map snd outs)) : gmap nat preds) !! j = Some o.2.
Proof.
  intros Hin HF. induction HF as [|ip o ips outs Hip HF IH]; intros Hj Hp.
  - by apply not_elem_of_nil in Hj.
  - cbn [map zip zip_with]. rewrite list_to_map_cons. cbn [fst snd].
    destruct (decide (j = ip.1)) as [->|Hne].
    + exists o. rewrite (Hin ip) in Hp by apply list_elem_of_here.
      injection Hp as <-. split; [done|apply lookup_insert_eq].
    + rewrite lookup_insert_ne by done. apply IH; [|by apply elem_of_cons in Hj as [|]|done].
      intros ip' Hip'. by apply Hin, list_elem_of_further.
Qed.

Lemma omap_seq_Forall2 {A B} (R : A -> B -> Prop) (l : list A) (f : nat -> option B) :
  (forall j x, l !! j = Some x -> exists y, f j = Some y /\ R x y) ->
  Forall2 R l (omap f (seq 0 (length l))).
Proof.
  induction l as [|x l IH] using rev_ind; intros Hf; [constructor|].
  rewrite length_app. cbn [length]. rewrite Nat.add_1_r, seq_S, omap_app.
  apply Forall2_app.
  - apply IH. intros j y Hy. apply Hf. by apply lookup_app_l_Some.
  - destruct (Hf (length l) x) as (y & Hy & HR).
    { by rewrite lookup_app_r, Nat.sub_diag by done. }
    cbn [omap list_omap]. simpl. rewrite Hy. by repeat constructor.
Qed.

(** Forcing the evaluation tasks of one environment, for any order in
    which the tasks reach the collector. *)
Lemma compute_evaluations_spec env (s : state) (dataset : list part) (arrival : list nat)
    (w : world) (received : list metrics) :
  store w !! rm_state (ee_remote_model env) = Some s ->
  actors w !! ee_metric_collector env = Some received ->
  arrival ≡ₚ seq 0 (length dataset) ->
  store (compute_e arrival (map (pair env) dataset) w).1 = store w /\
  put_count (trace (compute_e arrival (map (pair env) dataset) w).1) = put_count (trace w) /\
  exists k : nat,
    (k <= length dataset)%nat /\
    get_refs (trace (compute_e arrival (map (pair env) dataset) w).1) =
      get_refs (trace w) ++ replicate k (rm_state (ee_remote_model env)) /\
    match (compute_e arrival (map (pair env) dataset) w).2 with
    | Ok ys =>
        k = length dataset /\
        Forall2 (fun p y => exists mets, evaluation_of env s p = Ok (mets, y)) dataset ys
    | Raise e => exists p, p ∈ dataset /\ evaluation_of env s p = Raise e
    end.
Proof.
  intros Hs Ha Hperm. rewrite compute_evaluations_unfold.
  pose proof (permutation_in_range _ _ Hperm) as Hrange.
  pose proof (scheduled_in_range dataset arrival Hrange) as Hfst.
  assert (Hlen : length (scheduled dataset arrival) = length dataset).
  { rewrite <- (length_map fst), Hfst, Hperm. apply length_seq. }
  destruct (evaluation_run_spec env s (scheduled dataset arrival) w received Hs Ha)
    as (outs & HF & _ & Hstore & _ & Hput & Hres).
  destruct (for_each (indexed_task env) (scheduled dataset arrival) w) as [w' [results|e]];
    cbn [fst snd] in *.
  - destruct Hres as (Houts & -> & Hget). split; [done|]. split; [done|].
    exists (length dataset). split; [done|]. split; [by rewrite Hget, Hlen|].
    split; [done|]. rewrite Houts, take_ge in HF by done.
    apply omap_seq_Forall2. intros j p Hp.
    destruct (results_by_partition env s dataset (scheduled dataset arrival) outs j p)
      as (o & Ho & Hj); [|done| |done|].
    + intros ip Hip. by apply scheduled_lookup in Hip as [_ ?].
    + rewrite Hfst, Hperm. apply elem_of_seq. apply lookup_lt_Some in Hp. lia.
    + exists o.2. split; [done|]. exists o.1. by destruct o.
  - destruct Hres as ((ip & Hip & Hraise) & Hget). split; [done|]. split; [done|].
    exists (S (length outs)). split.
    { apply lookup_lt_Some in Hip. lia. }
    split; [done|]. exists ip.2. split; [|done].
    apply list_elem_of_lookup_2 in Hip. apply scheduled_lookup in Hip as [_ Hip].
    by eapply list_elem_of_lookup_2.
Qed.

Lemma batch_predict_unfold (self : @RayPredictor pkwargs) (model : nat) (dataset : list part)
    (a : pargs) (w : world) :
  batch_predict self model dataset a w =
  match heap w !! model with
  | Some m =>
      (log (EvMapPartitions (length dataset)) (captured w m),
       Ok (map (pair {| pe_remote_model := handle_of w m;
                        pe_predictor_kwargs := predictor_kwargs self;
                        pe_args := a |}) dataset))
  | None => (w, Raise TypeError)
  end.
Proof.
  unfold batch_predict, bind. rewrite RayRemoteModel_init_unfold.
  by destruct (heap w !! model).
Qed.

Lemma batch_evaluation_unfold (self : @RayPredictor pkwargs) (model : nat) (dataset : list part)
    (a : pargs) (w : world) :
  batch_evaluation self model dataset a w =
  match heap w !! model with
  | Some m =>
      let c := length (actors w) in
      let w3 := log (EvMapPartitions (length dataset)) (captured (with_collector w) m) in
      (log (EvCollect c) (set_actors (<[c := MetricCollector_init]> (actors w3)) w3),
       Ok ({| predictor_kwargs := predictor_kwargs self;
              actor_handles := actor_handles self ++ [c] |},
           (sum_dicts MetricCollector_init,
            map (pair {| ee_metric_collector := c;
                         ee_remote_model := handle_of w m;
                         ee_predictor_kwargs := predictor_kwargs self;
                         ee_args := a |}) dataset)))
  | None => (with_collector w, Raise TypeError)
  end.
Proof.
  unfold batch_evaluation, bind at 1. unfold MetricCollector_remote at 1.
  fold (with_collector w). unfold bind at 1.
  rewrite RayRemoteModel_init_unfold.
  change (heap (with_collector w)) with (heap w).
  destruct (heap w !! model) as [m|]; [|done].
  unfold bind, map_partitions, remote_collect, ret. cbn [actors log set_actors captured set_store with_collector].
  rewrite lookup_app_r, Nat.sub_diag by done. simpl. done.
Qed.

(** C6: one call of [batch_predict] or [batch_evaluation] publishes the
    model's state once, before the partition tasks are scheduled, and
    every task holds the handle made by that one capture.  Forcing the
    tasks, however many partitions there are and in whatever order the
    evaluation tasks reach the collector, publishes nothing more: every
    task that runs fetches the blob of that one handle, so that the
    fetches since the call are fetches of it only, one per partition when
    the forcing returns; and what a task returns, or raises, is what the
    routine returns or raises on the model restored from that handle. *)
Theorem batch_calls_capture_once (self : @RayPredictor pkwargs) (model : nat)
    (dataset : list part) (a : pargs) (w : world) (m : obj) :
  heap w !! model = Some m ->
  let r := length (store w) in
  let h := handle_of w m in
  let o := restored h (py_reduce m).2 in
  (exists w1 env,
     batch_predict self model dataset a w = (w1, Ok (map (pair env) dataset)) /\
     pe_remote_model env = h /\
     store w1 = store w ++ [(py_reduce m).2] /\
     trace w1 = trace w ++ [EvPut r; EvMapPartitions (length dataset)] /\
     forall w2 res, compute_p (map (pair env) dataset) w1 = (w2, res) ->
       store w2 = store w1 /\ put_count (trace w2) = S (put_count (trace w)) /\
       exists k : nat,
         (k <= length dataset)%nat /\
         get_refs (trace w2) = get_refs (trace w) ++ replicate k (rm_state h) /\
         match res with
         | Ok ys =>
             k = length dataset /\
             Forall2 (fun p y => predictor_batch_predict (predictor_kwargs self) o p a = Ok y)
               dataset ys
         | Raise e =>
             exists p, p ∈ dataset /\
                       predictor_batch_predict (predictor_kwargs self) o p a = Raise e
         end) /\
  (exists w1 self' mets env,
     batch_evaluation self model dataset a w =
       (w1, Ok (self', (mets, map (pair env) dataset))) /\
     ee_remote_model env = h /\
     store w1 = store w ++ [(py_reduce m).2] /\
     trace w1 = trace w ++ [EvActorNew (length (actors w)); EvPut r;
                            EvMapPartitions (length dataset);
                            EvCollect (length (actors w))] /\
     forall arrival w2 res,
       arrival ≡ₚ seq 0 (length dataset) ->
       compute_e arrival (map (pair env) dataset) w1 = (w2, res) ->
       store w2 = store w1 /\ put_count (trace w2) = S (put_count (trace w)) /\
       exists k : nat,
         (k <= length dataset)%nat /\
         get_refs (trace w2) = get_refs (trace w) ++ replicate k (rm_state h) /\
         match res with
         | Ok ys =>
             k = length dataset /\
             Forall2 (fun p y => exists mets',
                        predictor_batch_evaluation (predictor_kwargs self) o p a
                          = Ok (mets', y))
               dataset ys
         | Raise e =>
             exists p, p ∈ dataset /\
                       predictor_batch_evaluation (predictor_kwargs self) o p a = Raise e
         end).
Proof.
  intros Hm r h o. split.
  - rewrite batch_predict_unfold, Hm. fold h.
    set (env := {| pe_remote_model := h |}).
    set (w1 := log _ (captured w m)).
    exists w1, env. split; [done|]. split; [done|]. split; [done|]. split.
    { simpl. by rewrite <- !app_assoc. }
    intros w2 res Hrun.
    destruct (compute_predictions_no_put (map (pair env) dataset) w1) as [Hst Hput].
    rewrite Hrun in Hst, Hput. cbn [fst] in Hst, Hput. split; [done|]. split.
    { rewrite Hput. unfold w1. cbn -[put_count]. rewrite !put_count_snoc. simpl. lia. }
    assert (Hs : store w1 !! rm_state h = Some (py_reduce m).2) by apply captured_lookup.
    set (run := fun (p : part) (o : obj) =>
                  predictor_batch_predict (predictor_kwargs self) o p a).
    assert (Heq : compute_p (map (pair env) dataset) w1 =
                  for_each (fun p => bind (load_value h) (fun o => lift (run p o))) dataset w1).
    { unfold compute_predictions. by rewrite for_each_map. }
    destruct (dispatch_spec run h _ dataset w1 Hs) as (k & Hk & Hw & Hshape).
    rewrite <- Heq, Hrun in Hw, Hshape. cbn [fst snd] in Hw, Hshape.
    exists k. split; [done|]. split.
    { rewrite Hw. cbn [trace]. unfold w1. cbn [trace log captured set_store].
      rewrite !get_refs_app, get_refs_gets. simpl. by rewrite !app_nil_r. }
    destruct res as [ys|e]; [done|].
    destruct Hshape as (k' & p & _ & Hp & Hraise). exists p.
    split; [by eapply list_elem_of_lookup_2|done].
  - rewrite batch_evaluation_unfold, Hm. cbv zeta. fold h.
    set (c := length (actors w)).
    set (env := {| ee_metric_collector := c |}).
    set (w1 := log (EvCollect c) _).
    eexists w1, _, _, env.
    split; [done|]. split; [done|]. split; [done|]. split.
    { simpl. by rewrite <- !app_assoc. }
    intros arrival w2 res Hperm Hrun.
    assert (Hs : store w1 !! rm_state (ee_remote_model env) = Some (py_reduce m).2).
    { apply (captured_lookup (with_collector w) m). }
    assert (Ha : actors w1 !! ee_metric_collector env = Some []).
    { cbn [actors log set_actors captured set_store with_collector w1 env ee_metric_collector].
      rewrite list_lookup_insert_eq; [done|]. rewrite length_app. simpl. unfold c. lia. }
    destruct (compute_evaluations_spec env _ dataset arrival w1 [] Hs Ha Hperm)
      as (Hst & Hput & k & Hk & Hget & Hres).
    rewrite Hrun in Hst, Hput, Hget, Hres. cbn [fst snd] in Hst, Hput, Hget, Hres.
    split; [done|]. split.
    { rewrite Hput. unfold w1. cbn -[put_count]. rewrite !put_count_snoc. simpl. lia. }
    exists k. split; [done|]. split; [|done].
    rewrite Hget. unfold w1.
    cbn [trace log captured set_store set_actors with_collector].
    rewrite !get_refs_app. simpl. by rewrite !app_nil_r.
Qed.

(** C5: when [execute] raises inside [train] or [train_online] the call
    raises the same exception and the driver's objects, the caller's
    model among them, are what they were.  [batch_predict] and
    [batch_evaluation] run no partition closure: for any dataset and any
    routine they return, with the tasks of the partitions not yet run,
    and they never write to the driver's objects, neither when called nor
    when their tasks are forced; a task that raises makes the forcing
    raise that exception.  A worker whose closure raises makes [execute]
    raise that exception. *)
Theorem failure_leaves_model_unchanged :
  (forall (self : @RayTrainer MC targs stats) model a (w w1 w2 : world) h e,
     RayRemoteModel_init model w = (w1, Ok h) ->
     execute (executor_workers self) (train_fn h a) w1 = (w2, Raise e) ->
     train self model a w = (w2, Raise e) /\ heap w2 = heap w) /\
  (forall (self : @RayTrainer MC targs stats) model a (w w1 w2 : world) h e,
     RayRemoteModel_init model w = (w1, Ok h) ->
     execute (executor_workers self) (train_online_fn h a) w1 = (w2, Raise e) ->
     train_online self model a w = (w2, Raise e) /\ heap w2 = heap w) /\
  (forall (self : @RayPredictor pkwargs) model (dataset : list part) (a : pargs) (w : world),
     heap (batch_predict self model dataset a w).1 = heap w /\
     heap (batch_evaluation self model dataset a w).1 = heap w) /\
  (forall (self : @RayPredictor pkwargs) model (dataset : list part) (a : pargs)
          (w : world) (m : obj),
     heap w !! model = Some m ->
     (exists tasks, (batch_predict self model dataset a w).2 = Ok tasks /\
                    length tasks = length dataset) /\
     (exists self' mets tasks,
        (batch_evaluation self model dataset a w).2 = Ok (self', (mets, tasks)) /\
        length tasks = length dataset)) /\
  (forall tasks (w : world), heap (compute_p tasks w).1 = heap w) /\
  (forall arrival tasks (w : world), heap (compute_e arrival tasks w).1 = heap w) /\
  (forall tasks1 t tasks2 (w w1 w2 : world) ys e,
     compute_p tasks1 w = (w1, Ok ys) ->
     predict_partition t.1 t.2 w1 = (w2, Raise e) ->
     compute_p (tasks1 ++ t :: tasks2) w = (w2, Raise e)) /\
  (forall arrival1 i arrival2 tasks t (w w1 w2 : world) ys e,
     tasks !! i = Some t ->
     compute_e arrival1 tasks w = (w1, Ok ys) ->
     evaluate_partition t.1 t.2 w1 = (w2, Raise e) ->
     compute_e (arrival1 ++ i :: arrival2) tasks w = (w2, Raise e)) /\
  (forall A (fn : @RemoteTrainer MC targs stats -> M A) ws1 t ws2
          (w w1 w2 : world) rs e,
     execute ws1 fn w = (w1, Ok rs) ->
     fn t w1 = (w2, Raise e) ->
     execute (ws1 ++ t :: ws2) fn w = (w2, Raise e)).
Proof.
  split; [intros; by eapply train_failure|].
  split; [intros; by eapply train_online_failure|].
  split.
  { intros self model dataset a w. split.
    - rewrite batch_predict_unfold. by destruct (heap w !! model).
    - rewrite batch_evaluation_unfold. by destruct (heap w !! model). }
  split.
  { intros self model dataset a w m Hm. split.
    - rewrite batch_predict_unfold, Hm. eexists. split; [done|]. apply length_map.
    - rewrite batch_evaluation_unfold, Hm. cbv zeta. eexists _, _, _.
      split; [done|]. apply length_map. }
  split; [intros; apply compute_predictions_same_heap|].
  split; [intros; apply compute_evaluations_same_heap|].
  split; [|split].
  - intros tasks1 t tasks2 w w1 w2 ys e H1 H2.
    by apply (for_each_raise _ tasks1 tasks2 t w w1 w2 ys e H1).
  - intros arrival1 i arrival2 tasks t w w1 w2 ys e Ht H1 H2.
    unfold compute_evaluations, bind at 1 in H1.
    unfold compute_evaluations, bind at 1.
    destruct (for_each _ (scheduled tasks arrival1) w) as [w1' [rs|e']] eqn:Hpre;
      [|discriminate].
    injection H1 as -> _.
    assert (Hsplit : scheduled tasks (arrival1 ++ i :: arrival2) =
                     scheduled tasks arrival1 ++ (i, t) :: scheduled tasks arrival2).
    { unfold scheduled. rewrite omap_app. cbn [omap list_omap]. by rewrite Ht. }
    rewrite Hsplit.
    rewrite (for_each_raise _ (scheduled tasks arrival1) (scheduled tasks arrival2) (i, t)
               w w1 w2 rs e Hpre); [done|].
    unfold bind. cbn [fst snd]. by rewrite H2.
  - intros A fn ws1 t ws2 w w1 w2 rs e H1 H2.
    by apply (for_each_raise fn ws1 ws2 t w w1 w2 rs e H1).
Qed.

End PredictorSpec.

(** ** The metric collector *)

Section CollectorSpec.
Context {MC : ModelClass} {MV : MetricValue}.

Lemma add_all_app (self arrivals : list metrics) :
  add_all self arrivals = self ++ arrivals.
Proof.
  revert self. induction arrivals as [|m ms IH]; intros self; simpl.
  - by rewrite app_nil_r.
  - unfold add_all in *. simpl. rewrite IH. by rewrite <- app_assoc.
Qed.

(** Mappings with the single key [key]: the running sum stays a single
    item. *)
Lemma sum_single_key (key : string) (x : mval) (vals : list mval) :
  foldl (fun summed d => foldl (fun acc kv => dict_add kv.1 kv.2 acc) summed d)
        [(key, x)] (map (fun a => [(key, a)]) vals) =
  [(key, foldl madd x vals)].
Proof.
  revert x. induction vals as [|v vals IH]; intros x; simpl; [done|].
  rewrite decide_True by done. apply IH.
Qed.

Lemma sum_dicts_single_key (key : string) (v0 : mval) (vals : list mval) :
  sum_dicts (map (fun a => [(key, a)]) (v0 :: vals)) = [(key, foldl madd v0 vals)].
Proof. unfold sum_dicts. simpl. apply sum_single_key. Qed.

(** Reading a key after adding an item. *)
Lemma dict_get_dict_add (k k' : string) (v : mval) (d : metrics) :
  dict_get k (dict_add k' v d) =
  if decide (k = k')
  then Some (match dict_get k d with Some p => madd p v | None => v end)
  else dict_get k d.
Proof.
  induction d as [|[k0 p0] rest IH]; simpl.
  - by destruct (decide (k = k')).
  - destruct (decide (k' = k0)) as [->|Hne]; simpl.
    + by destruct (decide (k = k0)).
    + destruct (decide (k = k0)) as [->|Hne'].
      * by rewrite decide_False by done.
      * exact IH.
Qed.

Lemma sum_values_snoc (vs : list mval) (v : mval) :
  sum_values (vs ++ [v]) =
  Some (match sum_values vs with Some p => madd p v | None => v end).
Proof.
  destruct vs as [|a r]; simpl; [done|]. by rewrite foldl_snoc.
Qed.

(** Adding the items of one mapping extends, under every key, the sum
    read so far by the values that mapping has under the key. *)
Lemma dict_get_add_items (k : string) (d acc : metrics) (vs : list mval) :
  dict_get k acc = sum_values vs ->
  dict_get k (foldl (fun acc kv => dict_add kv.1 kv.2 acc) acc d) =
  sum_values (vs ++ map snd (filter (fun kv => kv.1 = k) d)).
Proof.
  unfold metrics in *.
  revert acc vs. induction d as [|[k' v] d IH]; intros acc vs Hacc; simpl.
  - by rewrite app_nil_r.
  - destruct (decide (k' = k)) as [->|Hne].
    + rewrite (filter_cons_True (fun kv : string * mval => kv.1 = k)) by done. simpl.
      rewrite (IH _ (vs ++ [v])).
      * by rewrite <- app_assoc.
      * rewrite dict_get_dict_add, decide_True, sum_values_snoc, Hacc; done.
    + rewrite (filter_cons_False (fun kv : string * mval => kv.1 = k)) by done.
      apply IH. rewrite dict_get_dict_add, decide_False; done.
Qed.

Lemma dict_get_sum_from (k : string) (dicts : list metrics) (acc : metrics)
    (vs : list mval) :
  dict_get k acc = sum_values vs ->
  dict_get k
    (foldl (fun summed d => foldl (fun acc kv => dict_add kv.1 kv.2 acc) summed d)
       acc dicts) =
  sum_values (vs ++ values_of k dicts).
Proof.
  revert acc vs. induction dicts as [|d dicts IH]; intros acc vs Hacc; simpl.
  - by rewrite app_nil_r.
  - rewrite app_assoc. apply IH. by apply dict_get_add_items.
Qed.

(** Under every key the merged mapping holds the sum of the values
    received under that key, in arrival order. *)
Lemma dict_get_sum_dicts (k : string) (dicts : list metrics) :
  dict_get k (sum_dicts dicts) = sum_values (values_of k dicts).
Proof. exact (dict_get_sum_from k dicts [] [] eq_refl). Qed.

Context `{!MetricLaws MV}.

Lemma foldl_madd_perm (x : mval) (l l' : list mval) :
  l ≡ₚ l' -> foldl madd x l = foldl madd x l'.
Proof.
  intros Hp. revert x. induction Hp as [|y l l' _ IH|y z l|l l' l'' _ IH1 _ IH2];
    intros x; simpl.
  - done.
  - apply IH.
  - f_equal. rewrite <- !madd_assoc. f_equal. apply madd_comm.
  - by rewrite IH1.
Qed.

(** The sum of a sequence does not depend on its order, the first value
    included. *)
Lemma sum_values_perm (vs vs' : list mval) :
  vs ≡ₚ vs' -> sum_values vs = sum_values vs'.
Proof.
  intros Hp.
  induction Hp as [|a k k' Hp _|a b k|k k' k'' Hp1 IH1 Hp2 IH2]; simpl.
  - done.
  - f_equal. by apply foldl_madd_perm.
  - do 2 f_equal. apply madd_comm.
  - by rewrite IH1.
Qed.

Lemma foldl_madd_perm_cons (x y : mval) (l l' : list mval) :
  x :: l ≡ₚ y :: l' -> foldl madd x l = foldl madd y l'.
Proof.
  intros Hp. apply sum_values_perm in Hp. simpl in Hp. by injection Hp.
Qed.

Lemma values_of_perm (k : string) (dicts dicts' : list metrics) :
  dicts ≡ₚ dicts' -> values_of k dicts ≡ₚ values_of k dicts'.
Proof. intros Hp. unfold values_of. by rewrite Hp. Qed.

End CollectorSpec.

Lemma qc_metric_laws : MetricLaws Toy.qc_metric.
Proof.
  split; simpl.
  - apply Qcplus_comm.
  - apply Qcplus_assoc.
Qed.

(** C4: after add calls with the mappings [{key: a_i}], [collect]
    returns the single item [key] with the [a_i] added from left to right
    in arrival order, and for arbitrary mappings the merged mapping holds
    under every key the values received under it, added in arrival
    order.  The merged mapping is the same for every arrival order when
    the addition of the values is commutative and associative, as it is
    for integers and exact fractions.  With binary64 floating-point
    values, [{loss: 1.0}], [{loss: 2.0}] and [{loss: 0.5}] give
    [{loss: 3.5}] in each of their six arrival orders. *)
Theorem collect_sums_in_arrival_order :
  (forall (MV : MetricValue) (key : string) (v0 : mval) (vals : list mval),
     collected key (v0 :: vals) = [(key, foldl madd v0 vals)]) /\
  (forall (MV : MetricValue) (key : string) (arrivals : list metrics),
     dict_get key (MetricCollector_collect (add_all MetricCollector_init arrivals)).2
       = sum_values (values_of key arrivals)) /\
  (forall (MV : MetricValue), MetricLaws MV ->
     @order_independent MV /\
     forall (key : string) (arrivals arrivals' : list metrics),
       arrivals ≡ₚ arrivals' ->
       dict_get key (MetricCollector_collect (add_all MetricCollector_init arrivals)).2
       = dict_get key (MetricCollector_collect (add_all MetricCollector_init arrivals')).2) /\
  (forall arrival : list float,
     arrival ≡ₚ [1; 2; 0.5]%float ->
     collected (MV := FloatMetrics.float_metric) "loss" arrival = [("loss"%string, 3.5%float)]).
Proof.
  split; [|split; [|split]].
  - intros MV key v0 vals. unfold collected. simpl.
    rewrite !add_all_app. simpl. apply sum_dicts_single_key.
  - intros MV key arrivals. simpl. rewrite !add_all_app. simpl. apply dict_get_sum_dicts.
  - intros MV laws. split.
    + intros key arrival arrival' Hperm. unfold collected. simpl.
      rewrite !add_all_app. simpl.
      destruct arrival as [|v0 vals], arrival' as [|v0' vals'].
      * done.
      * by apply Permutation_nil_cons in Hperm.
      * symmetry in Hperm. by apply Permutation_nil_cons in Hperm.
      * rewrite !sum_dicts_single_key. do 2 f_equal. by apply foldl_madd_perm_cons.
    + intros key arrivals arrivals' Hperm. simpl. rewrite !add_all_app. simpl.
      rewrite !dict_get_sum_dicts. apply sum_values_perm. by apply values_of_perm.
  - intros arrival Hperm. symmetry in Hperm. apply permutations_Permutation in Hperm.
    cbn in Hperm.
    repeat (apply elem_of_cons in Hperm as [->|Hperm]; [reflexivity|]).
    by apply not_elem_of_nil in Hperm.
Qed.

(** The theorem at exact rationals, and at the arrival order 2.0, 0.5,
    1.0 of floating-point values. *)
Lemma collect_sums_in_arrival_order_witness :
  @order_independent Toy.qc_metric /\
  collected (MV := FloatMetrics.float_metric) "loss" [2; 0.5; 1]%float
    = [("loss"%string, 3.5%float)] /\
  collected (MV := FloatMetrics.float_metric) "loss" [2; 0.5; 1]%float
    = [("loss"%string, PrimFloat.add (PrimFloat.add 2 0.5) 1)].
Proof.
  split; [|split].
  - exact (proj1 (proj1 (proj2 (proj2 collect_sums_in_arrival_order))
                    Toy.qc_metric qc_metric_laws)).
  - apply (proj2 (proj2 (proj2 collect_sums_in_arrival_order))).
    etrans; [apply Permutation_skip, Permutation_swap|apply Permutation_swap].
  - exact (proj1 collect_sums_in_arrival_order FloatMetrics.float_metric "loss"%string
             2%float [0.5; 1]%float).
Defined.

(** C4 as stated fails for the metric values of the program, which are
    binary64 floating-point numbers: their addition is not associative,
    and the mappings [{acc: 0.1}], [{acc: 0.2}], [{acc: 0.3}] are merged
    into a different sum when they arrive in the reverse order. *)
Lemma float_sum_depends_on_arrival_order :
  ~ @order_independent FloatMetrics.float_metric.
Proof.
  intros H.
  specialize (H "acc"%string
                [FloatMetrics.tenth; FloatMetrics.fifth; FloatMetrics.three_tenths]
                [FloatMetrics.three_tenths; FloatMetrics.fifth; FloatMetrics.tenth]
                (reverse_Permutation
                   [FloatMetrics.three_tenths; FloatMetrics.fifth; FloatMetrics.tenth])).
  apply (f_equal (fun d : @metrics FloatMetrics.float_metric =>
                    match d with
                    | [(_, x)] =>
                        PrimFloat.eqb x
                          (PrimFloat.add (PrimFloat.add FloatMetrics.tenth FloatMetrics.fifth)
                             FloatMetrics.three_tenths)
                    | _ => false
                    end)) in H.
  vm_compute in H. discriminate H.
Qed.

Section CollectReads.
Context {MC : ModelClass} {MV : MetricValue}.

(** C9: [collect] returns the actor's list of mappings as it found it, so
    a second [collect] returns what the first returned; on the world, the
    remote call changes no actor, no driver object and no stored blob;
    and a collector that has received nothing returns the empty mapping. *)
Theorem collect_is_a_read :
  (forall self : list metrics, (MetricCollector_collect self).1 = self) /\
  (forall self : list metrics,
     (MetricCollector_collect (MetricCollector_collect self).1).2 =
     (MetricCollector_collect self).2) /\
  (forall (a : nat) (w : world),
     actors (remote_collect a w).1 = actors w /\
     heap (remote_collect a w).1 = heap w /\
     store (remote_collect a w).1 = store w /\
     (remote_collect a (remote_collect a w).1).2 = (remote_collect a w).2) /\
  (MetricCollector_collect MetricCollector_init).2 = [] /\
  (forall w : world,
     (remote_collect (length (actors w)) (MetricCollector_remote w).1).2 = Ok []).
Proof.
  split; [done|]. split; [done|]. split; [|split; [done|]].
  - intros a w. unfold remote_collect.
    destruct (actors w !! a) as [self|] eqn:Hself; cbn [fst snd].
    + pose proof (list_insert_id (actors w) a self Hself) as Hid.
      unfold MetricCollector_collect. cbn [actors heap store log set_actors].
      rewrite Hid. cbn [fst snd actors heap store log set_actors].
      rewrite Hself, Hid. done.
    + by rewrite Hself.
  - intros w. unfold remote_collect, MetricCollector_remote. simpl.
    by rewrite lookup_app_r, Nat.sub_diag.
Qed.

End CollectReads.

(** ** The executor's configuration *)

Module TrainerInitSpec.
Import Bucketer TrainerInit.

Lemma dict_merge_lookup (a b : gmap string pyval) (k : string) :
  dict_merge a b !! k =
  match b !! k with
  | Some v => Some v
  | None => a !! k
  end.
Proof.
  unfold dict_merge. destruct (b !! k) as [v|] eqn:Hb.
  - by apply lookup_union_Some_l.
  - by apply lookup_union_r.
Qed.

Lemma derived_value_kwargs resources cluster derived (f : config_field) :
  get_horovod_kwargs resources cluster = Ok derived ->
  f ≠ CoordinationTimeout ->
  derived_value resources cluster f = derived !! field_key f.
Proof.
  intros Hd Hf. unfold derived_value, RayTrainer_executor_args. rewrite Hd.
  destruct f; try done; simpl; by rewrite dict_merge_lookup, lookup_empty.
Qed.

(** C7, as the code has it: for [num_slots], [num_hosts] and [use_gpu]
    the value passed to the executor is the caller's when the caller gave
    one and the resource-derived one otherwise; the coordination timeout
    passed to the executor is 30 seconds whatever the caller gave. *)
Theorem overrides_replace_resource_fields
    (resources : list (gmap string Z)) (cluster : gmap string Z)
    (horovod_kwargs : gmap string pyval) (ea : executor_args) :
  RayTrainer_executor_args resources cluster horovod_kwargs = Ok ea ->
  (forall f, f ≠ CoordinationTimeout ->
     passed_value ea f =
       match horovod_kwargs !! field_key f with
       | Some v => Some v
       | None => derived_value resources cluster f
       end) /\
  passed_value ea CoordinationTimeout = Some (VInt 30) /\
  (forall k derived, get_horovod_kwargs resources cluster = Ok derived ->
     ea_kwargs ea !! k =
       match horovod_kwargs !! k with
       | Some v => Some v
       | None => derived !! k
       end).
Proof.
  unfold RayTrainer_executor_args.
  destruct (get_horovod_kwargs resources cluster) as [derived|e] eqn:Hd; [|discriminate].
  intros [= <-]. split; [|split].
  - intros f Hf. rewrite (derived_value_kwargs _ _ derived) by done.
    destruct f; try done; simpl; apply dict_merge_lookup.
  - done.
  - intros k d [= <-]. simpl. apply dict_merge_lookup.
Qed.

(** The theorem at the four-node cluster, with [num_hosts] overridden to
    2 and a timeout of 60 asked for. *)
Lemma overrides_replace_resource_fields_witness :
  exists ea,
    RayTrainer_executor_args four_nodes four_nodes_cluster
      (<["num_hosts" := VInt 2]> (<["timeout_s" := VInt 60]> ∅)) = Ok ea /\
    passed_value ea NumHosts = Some (VInt 2) /\
    passed_value ea NumSlots = Some (VInt 2) /\
    passed_value ea CoordinationTimeout = Some (VInt 30).
Proof.
  eexists. split; [reflexivity|].
  destruct (overrides_replace_resource_fields four_nodes four_nodes_cluster
              (<["num_hosts" := VInt 2]> (<["timeout_s" := VInt 60]> ∅)) _ eq_refl)
    as (Hf & Ht & _).
  split; [|split; [|exact Ht]].
  - rewrite (Hf NumHosts) by discriminate. reflexivity.
  - rewrite (Hf NumSlots) by discriminate. by vm_compute.
Defined.

(** C7 as stated fails for the coordination timeout: an override of 60
    leaves the 30 of [create_settings] in place. *)
Lemma timeout_override_is_ignored :
  ~ (forall f, override_wins four_nodes four_nodes_cluster
                 (<["timeout_s" := VInt 60]> ∅) f).
Proof.
  intros H.
  specialize (H CoordinationTimeout _ eq_refl).
  vm_compute in H. discriminate H.
Qed.

End TrainerInitSpec.

(** ** Cache paths *)

Module CacheManagerSpec.
Import CacheManager.

(** C10: under [cache_dir=None] the cache path does not depend on the
    cache key: for an input file it is [tag.ext] in the directory of that
    file, so two keys give the same path; with a cache directory the key
    is part of the name. *)
Theorem cache_path_without_cache_dir_ignores_key :
  (forall (self : CacheManager) (input_fname : option string) (key1 key2 : string)
          (tag ext : option string),
     cache_dir self = None ->
     get_cache_path self input_fname key1 tag ext =
       get_cache_path self input_fname key2 tag ext /\
     forall f, input_fname = Some f ->
       get_cache_path self input_fname key1 tag ext =
       Ok (join (dirname f)
             (match truthy tag with Some t => t | None => path_stem f end
              +:+ "." +:+
              match truthy ext with Some e => e | None => data_format self end))) /\
  get_cache_path {| data_format := "hdf5"; cache_dir := None |}
    (Some "/data/train.csv") "3a5f" None None = Ok "/data/train.hdf5" /\
  get_cache_path {| data_format := "hdf5"; cache_dir := None |}
    (Some "/data/train.csv") "9c1e" None None = Ok "/data/train.hdf5" /\
  get_cache_path {| data_format := "hdf5"; cache_dir := Some "/cache" |}
    (Some "/data/train.csv") "3a5f" None None = Ok "/cache/3a5f.train.hdf5".
Proof.
  split; [|by vm_compute].
  intros self input_fname key1 key2 tag ext Hdir.
  unfold get_cache_path, get_cache_directory. rewrite Hdir. split; [done|].
  intros f ->. by destruct (truthy tag).
Qed.

(** The theorem at a metadata file next to [/data/train.csv]. *)
Lemma cache_path_without_cache_dir_ignores_key_witness :
  cache_dir {| data_format := "hdf5"; cache_dir := None |} = None /\
  get_cache_path {| data_format := "hdf5"; cache_dir := None |}
    (Some "/data/train.csv") "3a5f" (Some "meta") (Some "json") =
  get_cache_path {| data_format := "hdf5"; cache_dir := None |}
    (Some "/data/train.csv") "9c1e" (Some "meta") (Some "json").
Proof.
  split; [reflexivity|].
  exact (proj1 (proj1 cache_path_without_cache_dir_ignores_key
                  {| data_format := "hdf5"; cache_dir := None |}
                  (Some "/data/train.csv") "3a5f" "9c1e" (Some "meta") (Some "json")
                  eq_refl)).
Defined.

End CacheManagerSpec.

(** ** The statements at the small model class *)

Module ToySpec.
Import Toy.

Lemma toy_laws : ModelLaws toy_class.
Proof.
  split.
  - intros m c a s [= <- <- <-]. reflexivity.
  - reflexivity.
Qed.

(** C1 at [two_workers]: the model ends with the weights 1, 2. *)
Lemma train_takes_first_worker_witness :
  exists w3,
    train two_workers 0 tt toy_world = (w3, Ok (0%nat, 7%nat)) /\
    get_weights <$> heap w3 !! 0%nat = Some [1; 2].
Proof.
  destruct (train_takes_first_worker (ModelLaws0 := toy_laws) two_workers 0 tt toy_world
              (captured toy_world toy) _ (handle_of toy_world toy) [1; 2] 7%nat
              [Some ([9; 9], 8%nat)] eq_refl eq_refl)
    as (m & w3 & _ & Hrun & _ & Hw).
  exists w3. split; [exact Hrun|exact Hw].
Defined.

(** C3 at three loads of the captured [toy]. *)
Lemma load_restores_captured_state_witness :
  heap toy_world !! 0%nat = Some toy /\
  exists h w1 w3 ls,
    RayRemoteModel_init 0 toy_world = (w1, Ok h) /\
    load_many 3 h w1 = (w3, Ok ls) /\ length ls = 3%nat /\ NoDup ls /\
    forall l, l ∈ ls -> exists o, heap w3 !! l = Some o /\ py_reduce o = py_reduce toy.
Proof.
  assert (Hm : heap toy_world !! 0%nat = Some toy) by reflexivity.
  split; [exact Hm|].
  destruct (load_restores_captured_state (ModelLaws0 := toy_laws) toy_world 0 toy 3 Hm)
    as (h & w1 & Hinit & Hloads).
  destruct (Hloads w1 (reflexivity _)) as (w3 & ls & Hrun & Hlen & Hnd & Hnew & _).
  exists h, w1, w3, ls. split; [exact Hinit|]. split; [exact Hrun|].
  split; [exact Hlen|]. split; [exact Hnd|].
  intros l Hl. exact (proj2 (Hnew l Hl)).
Defined.

(** C5 at [failing_workers]: the call raises the worker's exception and
    the model keeps the weights 10, 20; and at [bad_dataset]:
    [batch_predict] returns its three tasks. *)
Lemma failure_leaves_model_unchanged_witness :
  (exists w2,
     train failing_workers 0 tt toy_world = (w2, Raise (WorkerError 1)) /\
     heap w2 = heap toy_world) /\
  (exists tasks,
     (batch_predict toy_predictor 0 bad_dataset tt toy_world).2 = Ok tasks /\
     length tasks = 3%nat).
Proof.
  split.
  - eexists.
    exact (proj1 (failure_leaves_model_unchanged toy_predict toy_evaluate)
             failing_workers 0%nat tt toy_world (captured toy_world toy) _
             (handle_of toy_world toy) (WorkerError 1) eq_refl eq_refl).
  - exact (proj1 (proj1 (proj2 (proj2 (proj2
             (failure_leaves_model_unchanged (targs := unit) (stats := nat)
                toy_predict toy_evaluate))))
             toy_predictor 0%nat bad_dataset tt toy_world toy eq_refl)).
Defined.

(** C5 as stated fails for [batch_predict] and [batch_evaluation]: on the
    second partition of [bad_dataset] the routines raise, on the model
    restored from the handle of the call, and both calls return all the
    same. *)
Lemma batch_calls_return_although_a_partition_raises :
  let o := py_setstate (py_new (rm_cls (handle_of toy_world toy))
                          (rm_args (handle_of toy_world toy))) (py_reduce toy).2 in
  ~ (forall (dataset : list (list Z)) (p : list Z) e,
       p ∈ dataset ->
       toy_predict tt o p tt = Raise e ->
       (batch_predict toy_predictor 0 dataset tt toy_world).2 = Raise e) /\
  ~ (forall (dataset : list (list Z)) (p : list Z) e,
       p ∈ dataset ->
       toy_evaluate tt o p tt = Raise e ->
       (batch_evaluation toy_predictor 0 dataset tt toy_world).2 = Raise e).
Proof.
  intros o. split; intros H.
  - specialize (H bad_dataset [-3] (WorkerError 0)).
    assert (Hin : [-3] ∈ bad_dataset) by (apply list_elem_of_further, list_elem_of_here).
    specialize (H Hin eq_refl). vm_compute in H. discriminate H.
  - specialize (H bad_dataset [-3] (WorkerError 0)).
    assert (Hin : [-3] ∈ bad_dataset) by (apply list_elem_of_further, list_elem_of_here).
    specialize (H Hin eq_refl). vm_compute in H. discriminate H.
Qed.

(** C6 at a dataset of three partitions: one put, and three fetches of
    the one blob when the tasks are forced. *)
Lemma batch_calls_capture_once_witness :
  heap toy_world !! 0%nat = Some toy /\
  exists w1 env,
    batch_predict toy_predictor 0 toy_dataset tt toy_world =
      (w1, Ok (map (pair env) toy_dataset)) /\
    trace w1 = [EvPut 0; EvMapPartitions 3] /\
    exists w2 ys,
      compute_predictions toy_predict (map (pair env) toy_dataset) w1 = (w2, Ok ys) /\
      put_count (trace w2) = 1%nat /\
      get_refs (trace w2) = [0; 0; 0]%nat.
Proof.
  assert (Hm : heap toy_world !! 0%nat = Some toy) by reflexivity.
  split; [exact Hm|].
  destruct (proj1 (batch_calls_capture_once (MC := toy_class) (MV := qc_metric)
                     toy_predict toy_evaluate
                     toy_predictor 0 toy_dataset tt toy_world toy Hm))
    as (w1 & env & Hcall & _ & _ & Htrace & Hforce).
  exists w1, env. split; [exact Hcall|]. split; [exact Htrace|].
  destruct (compute_predictions (MC := toy_class) toy_predict (map (pair env) toy_dataset) w1)
    as [w2 [ys|e]] eqn:Hrun.
  - exists w2, ys. split; [reflexivity|].
    destruct (Hforce w2 (Ok ys) eq_refl) as (_ & Hput & k & _ & Hget & Hk & _).
    split; [exact Hput|]. rewrite Hget, Hk. reflexivity.
  - exfalso. destruct (Hforce w2 (Raise e) eq_refl) as (_ & _ & k & _ & _ & p & Hp & Hraise).
    unfold toy_dataset in Hp.
    repeat (apply elem_of_cons in Hp as [->|Hp]; [discriminate Hraise|]).
    by apply not_elem_of_nil in Hp.
Defined.

End ToySpec.

(** ** The bucketer: bounds on the selected configuration *)

Module BucketerBounds.
Import Bucketer BucketerSpec ClusterTotals.

(** What a returned configuration is: the first bucket of maximal score. *)
Lemma get_horovod_kwargs_inv (resources : list (gmap string Z)) (cluster : gmap string Z)
    (d : gmap string pyval) :
  get_horovod_kwargs resources cluster = Ok d ->
  let gpu := use_gpu_of cluster in
  let key := target_key gpu in
  exists slots,
    slots ∈ map (get_count key) resources /\
    d = kwargs_dict slots (length (nodes_with key slots resources)) gpu /\
    forall k, k ∈ map (get_count key) resources ->
      score key resources k <= score key resources slots.
Proof.
  intros Hd gpu key. unfold get_horovod_kwargs in Hd. fold gpu key in Hd.
  rewrite make_buckets_spec in Hd.
  set (F := fun k : Z => (k, nodes_with key k resources)) in *.
  destruct (first_seen (map (get_count key) resources)) as [|k0 ks] eqn:Hkeys;
    [discriminate|].
  change (py_max get_total_resources (map F (k0 :: ks)))
    with (Ok (py_max_from get_total_resources (F k0) (map F ks))) in Hd.
  destruct (py_max_from_spec get_total_resources (F k0) (map F ks))
    as (i & Hi & Hmax & _).
  change (F k0 :: map F ks) with (F <$> (k0 :: ks)) in *.
  rewrite list_lookup_fmap in Hi.
  destruct ((k0 :: ks) !! i) as [slots|] eqn:Hslots; [|discriminate].
  simpl in Hi. injection Hi as Hi. rewrite <- Hi in *. clear Hi.
  simpl in Hd. injection Hd as <-.
  exists slots. split; [|split; [done|]].
  - apply elem_of_first_seen. rewrite Hkeys. by eapply list_elem_of_lookup_2.
  - intros k Hk. apply (Hmax (F k)). apply list_elem_of_fmap. exists k.
    split; [done|]. rewrite <- Hkeys. by apply elem_of_first_seen.
Qed.

Lemma nodes_with_count key k resources n :
  n ∈ nodes_with key k resources <-> get_count key n = k /\ n ∈ resources.
Proof. unfold nodes_with. by rewrite list_elem_of_filter. Qed.


Lemma nodes_with_nonempty key resources n :
  n ∈ resources -> (1 <= length (nodes_with key (get_count key n) resources))%nat.
Proof.
  intros Hn. assert (Hin : n ∈ nodes_with key (get_count key n) resources).
  { by apply nodes_with_count. }
  destruct (nodes_with key (get_count key n) resources); [|simpl; lia].
  by apply not_elem_of_nil in Hin.
Qed.

(** The nodes of a bucket hold no more of the resource than the whole
    cluster, provided no node reports a negative amount. *)
Lemma score_le_total key k resources :
  (forall n, n ∈ resources -> 0 <= get_count key n) ->
  score key resources k <= total_of key resources.
Proof.
  unfold score, nodes_with, total_of.
  induction resources as [|n l IH]; intros Hpos; simpl; [lia|].
  assert (Hn : 0 <= get_count key n) by apply Hpos, list_elem_of_here.
  assert (IH' : k * Z.of_nat (length (filter (fun n => get_count key n = k) l))
                <= foldr (fun n acc => get_count key n + acc) 0 l).
  { apply IH. intros m Hm. by apply Hpos, list_elem_of_further. }
  rewrite filter_cons. destruct (decide (get_count key n = k)) as [->|Hne]; simpl; lia.
Qed.

Lemma score_perm key k (resources resources' : list (gmap string Z)) :
  resources ≡ₚ resources' -> score key resources k = score key resources' k.
Proof. intros Hp. unfold score, nodes_with. by rewrite Hp. Qed.



(** When no node reports a negative amount, the slots of a returned
    configuration, over all its hosts, are no more than the cluster holds
    of the target resource. *)
Theorem selected_slots_within_total
    (resources : list (gmap string Z)) (cluster : gmap string Z) (slots : Z) (hosts : nat) gpu :
  (forall n, n ∈ resources -> 0 <= get_count (target_key (use_gpu_of cluster)) n) ->
  get_horovod_kwargs resources cluster = Ok (kwargs_dict slots hosts gpu) ->
  0 <= slots * Z.of_nat hosts <= total_of (target_key (use_gpu_of cluster)) resources.
Proof.
  intros Hpos Hd. destruct (get_horovod_kwargs_inv _ _ _ Hd) as (s & Hin & Heq & _).
  set (key := target_key (use_gpu_of cluster)) in *.
  assert (Hs : slots = s).
  { apply (f_equal (lookup "num_slots")) in Heq. vm_compute in Heq. congruence. }
  assert (Hh : Z.of_nat hosts = Z.of_nat (length (nodes_with key s resources))).
  { apply (f_equal (lookup "num_hosts")) in Heq.
    unfold kwargs_dict in Heq.
    rewrite !(lookup_insert_ne _ "num_slots" "num_hosts") in Heq by done.
    rewrite !lookup_insert_eq in Heq. congruence. }
  subst slots. rewrite Hh. fold (score key resources s). split.
  - apply list_elem_of_fmap in Hin as (n & -> & Hn). unfold score.
    specialize (Hpos n Hn). fold key in Hpos. nia.
  - by apply score_le_total.
Qed.

Lemma selected_slots_within_total_witness :
  0 <= 2 * Z.of_nat 3 <= total_of "GPU" four_nodes.
Proof.
  apply (selected_slots_within_total four_nodes four_nodes_cluster 2 3 true).
  - intros n Hn. vm_compute in Hn.
    repeat (apply elem_of_cons in Hn as [->|Hn]; [by vm_compute|]).
    by apply not_elem_of_nil in Hn.
  - reflexivity.
Defined.

Lemma kwargs_dict_inj slots slots' (hosts hosts' : nat) gpu gpu' :
  kwargs_dict slots hosts gpu = kwargs_dict slots' hosts' gpu' ->
  slots = slots' /\ hosts = hosts' /\ gpu = gpu'.
Proof.
  intros Heq.
  pose proof (f_equal (lookup "num_slots") Heq) as H1.
  pose proof (f_equal (lookup "num_hosts") Heq) as H2.
  pose proof (f_equal (lookup "use_gpu") Heq) as H3.
  unfold kwargs_dict in H1, H2, H3.
  rewrite !lookup_insert_eq in H1.
  rewrite !(lookup_insert_ne _ "num_slots" "num_hosts"), !lookup_insert_eq in H2 by done.
  rewrite !(lookup_insert_ne _ "num_slots" "use_gpu"),
    !(lookup_insert_ne _ "num_hosts" "use_gpu"), !lookup_insert_eq in H3 by done.
  injection H1 as ->. injection H2 as H2. injection H3 as ->.
  split; [done|]. split; [lia|done].
Qed.

(** A node with a positive amount of the target resource keeps the nodes
    without any out of the configuration: the slots are positive.  When
    every node reports zero (or nothing) of the target resource, the
    configuration is zero slots on all the nodes. *)
Theorem zero_count_nodes_are_left_out
    (resources : list (gmap string Z)) (cluster : gmap string Z) :
  (forall slots hosts gpu n,
     n ∈ resources -> 0 < get_count (target_key (use_gpu_of cluster)) n ->
     get_horovod_kwargs resources cluster = Ok (kwargs_dict slots hosts gpu) ->
     0 < slots) /\
  (resources ≠ [] ->
   (forall n, n ∈ resources -> get_count (target_key (use_gpu_of cluster)) n = 0) ->
   get_horovod_kwargs resources cluster =
     Ok (kwargs_dict 0 (length resources) (use_gpu_of cluster))).
Proof.
  set (key := target_key (use_gpu_of cluster)). split.
  - intros slots hosts gpu n Hn Hpos Hd.
    destruct (get_horovod_kwargs_inv _ _ _ Hd) as (s & Hin & Heq & Hmax).
    apply kwargs_dict_inj in Heq as (-> & _ & _). fold key in Hmax.
    specialize (Hmax (get_count key n)).
    assert (Hk : get_count key n ∈ map (get_count key) resources).
    { apply list_elem_of_fmap. eauto. }
    specialize (Hmax Hk). unfold score in Hmax.
    pose proof (nodes_with_nonempty key resources n Hn) as H1.
    destruct (decide (0 < s)) as [|Hs]; [done|]. exfalso.
    assert (s * Z.of_nat (length (nodes_with key s resources)) <= 0) by nia.
    assert (0 < get_count key n * Z.of_nat (length (nodes_with key (get_count key n) resources)))
      by nia.
    lia.
  - intros Hne Hzero.
    destruct (get_horovod_kwargs resources cluster) as [d|e] eqn:Hd.
    + destruct (get_horovod_kwargs_inv _ _ _ Hd) as (s & Hin & -> & _). fold key in Hin |- *.
      apply list_elem_of_fmap in Hin as (n & -> & Hn).
      rewrite (Hzero n Hn). do 3 f_equal.
      unfold nodes_with. clear -Hzero. fold key in Hzero.
      induction resources as [|m l IH]; [done|].
      rewrite filter_cons_True by apply Hzero, list_elem_of_here.
      simpl. f_equal. apply IH. intros n Hn. by apply Hzero, list_elem_of_further.
    + exfalso. unfold get_horovod_kwargs in Hd.
      pose proof (make_buckets_nonempty key resources Hne) as Hb. fold key in Hd.
      destruct (make_buckets key resources) as [|b bs]; [done|].
      simpl in Hd. by destruct (py_max_from get_total_resources b bs).
Qed.

Lemma zero_count_nodes_are_left_out_witness :
  0 < 2 /\
  get_horovod_kwargs [node 0 8; node 0 8] (<["GPU" := 1]> (<["CPU" := 16]> ∅))
    = Ok (kwargs_dict 0 (length [node 0 8; node 0 8])
            (use_gpu_of (<["GPU" := 1]> (<["CPU" := 16]> ∅)))).
Proof.
  split.
  - apply (proj1 (zero_count_nodes_are_left_out four_nodes four_nodes_cluster)
             2 3%nat true (node 2 8)).
    + apply list_elem_of_here.
    + by vm_compute.
    + reflexivity.
  - apply (proj2 (zero_count_nodes_are_left_out [node 0 8; node 0 8]
                    (<["GPU" := 1]> (<["CPU" := 16]> ∅)))).
    + discriminate.
    + intros n Hn.
      repeat (apply elem_of_cons in Hn as [->|Hn]; [by vm_compute|]).
      by apply not_elem_of_nil in Hn.
Defined.

(** The total number of slots of the configuration does not depend on
    the order in which the nodes are reported; which of several buckets
    of that total is returned does: with two one-GPU nodes and one
    two-GPU node the first reported count wins. *)
Theorem selected_total_is_order_independent :
  (forall (resources resources' : list (gmap string Z)) (cluster : gmap string Z)
          slots hosts gpu,
     resources ≡ₚ resources' ->
     get_horovod_kwargs resources cluster = Ok (kwargs_dict slots hosts gpu) ->
     exists slots' hosts',
       get_horovod_kwargs resources' cluster = Ok (kwargs_dict slots' hosts' gpu) /\
       slots' * Z.of_nat hosts' = slots * Z.of_nat hosts) /\
  get_horovod_kwargs tied_nodes tied_cluster = Ok (kwargs_dict 1 2 true) /\
  get_horovod_kwargs (reverse tied_nodes) tied_cluster = Ok (kwargs_dict 2 1 true).
Proof.
  split; [|split; reflexivity].
  intros resources resources' cluster slots hosts gpu Hp Hd.
  set (key := target_key (use_gpu_of cluster)).
  destruct (get_horovod_kwargs_inv _ _ _ Hd) as (s & Hin & Heq & Hmax).
  apply kwargs_dict_inj in Heq as (-> & -> & ->). fold key in Hin, Hmax.
  destruct (get_horovod_kwargs resources' cluster) as [d'|e] eqn:Hd'.
  - destruct (get_horovod_kwargs_inv _ _ _ Hd') as (s' & Hin' & -> & Hmax').
    fold key in Hin', Hmax' |- *.
    exists s', (length (nodes_with key s' resources')). split; [done|].
    fold (score key resources' s') (score key resources s).
    assert (H1 : score key resources s' <= score key resources s).
    { apply Hmax. by rewrite Hp. }
    assert (H2 : score key resources' s <= score key resources' s').
    { apply Hmax'. by rewrite <- Hp. }
    rewrite <- (score_perm key s resources resources' Hp) in H2.
    rewrite <- (score_perm key s' resources resources' Hp) in H2 |- *. lia.
  - exfalso. unfold get_horovod_kwargs in Hd'. fold key in Hd'.
    assert (Hne : resources' ≠ []).
    { intros ->. apply Permutation_nil_r in Hp as ->.
      by apply not_elem_of_nil in Hin. }
    pose proof (make_buckets_nonempty key resources' Hne) as Hb.
    destruct (make_buckets key resources') as [|b bs]; [done|].
    simpl in Hd'. by destruct (py_max_from get_total_resources b bs).
Qed.

Lemma selected_total_is_order_independent_witness :
  exists slots' hosts',
    get_horovod_kwargs (reverse four_nodes) four_nodes_cluster
      = Ok (kwargs_dict slots' hosts' true) /\
    slots' * Z.of_nat hosts' = 2 * Z.of_nat 3.
Proof.
  apply (proj1 selected_total_is_order_independent four_nodes (reverse four_nodes)
           four_nodes_cluster 2 3%nat true).
  - symmetry. apply reverse_Permutation.
  - reflexivity.
Defined.

End BucketerBounds.

(** ** Handles and training: further properties *)

Section TrainerMore.
Context {MC : ModelClass} {MV : MetricValue}.
Context {targs stats : Type}.

Local Abbreviation trainer := (@RemoteTrainer MC targs stats).

(** The object a handle restores from the blob [s]. *)
Local Abbreviation restored h s := (py_setstate (py_new (rm_cls h) (rm_args h)) s).

(** Two captures of one model object, the object being overwritten in
    between, give handles with different references, and after both
    captures each handle still restores the model as it was when that
    handle was made. *)
Theorem captures_do_not_interfere `{!ModelLaws MC}
    (w : world) (model : nat) (m m' : obj) :
  heap w !! model = Some m ->
  exists h1 w1 h2 w2 o1 o2,
    RayRemoteModel_init model w = (w1, Ok h1) /\
    RayRemoteModel_init model (assign model m' w1).1 = (w2, Ok h2) /\
    rm_state h1 ≠ rm_state h2 /\
    (load_value h1 w2).2 = Ok o1 /\ py_reduce o1 = py_reduce m /\
    (load_value h2 w2).2 = Ok o2 /\ py_reduce o2 = py_reduce m'.
Proof.
  intros Hm.
  set (w1 := captured w m).
  set (wa := (assign model m' w1).1).
  assert (Hm' : heap wa !! model = Some m') by apply lookup_insert_eq.
  exists (handle_of w m), w1, (handle_of wa m'), (captured wa m').
  exists (restored (handle_of w m) (py_reduce m).2),
         (restored (handle_of wa m') (py_reduce m').2).
  rewrite RayRemoteModel_init_unfold, Hm. split; [done|].
  fold wa. rewrite RayRemoteModel_init_unfold, Hm'.
  split; [done|]. split.
  { simpl. rewrite length_app. simpl. lia. }
  rewrite !load_value_unfold.
  assert (H1 : store (captured wa m') !! rm_state (handle_of w m) = Some (py_reduce m).2).
  { simpl. rewrite <- app_assoc. by rewrite lookup_app_r, Nat.sub_diag. }
  rewrite H1, captured_lookup. split; [done|]. split; [|split; [done|]].
  - simpl. destruct (py_reduce m) as [[c a] s] eqn:Hred. by apply (reduce_restore m).
  - simpl. destruct (py_reduce m') as [[c a] s] eqn:Hred. by apply (reduce_restore m').
Qed.

(** A call of [train] that returns has made one [ray.put] and then one
    [ray.get] per worker, has run the trainer of every worker on a copy
    restored from that one blob, and has written the weights of the first
    worker's result into the model. *)
Theorem train_runs_every_worker_on_one_snapshot
    (self : @RayTrainer MC targs stats) (model : nat) (a : targs) (w w3 : world)
    (m : obj) (res : nat * stats) :
  heap w !! model = Some m ->
  train self model a w = (w3, Ok res) ->
  let h := handle_of w m in
  let r := length (store w) in
  exists w0 st rest,
    res = (model, st) /\
    Forall2 (fun t x => RayRemoteTrainer_train t (restored h (py_reduce m).2) a = Ok x)
      (executor_workers self) (Some (w0, st) :: rest) /\
    heap w3 = <[model := set_weights m w0]> (heap w) /\
    store w3 = store w ++ [(py_reduce m).2] /\
    actors w3 = actors w /\
    trace w3 = trace w ++ EvPut r :: replicate (length (executor_workers self)) (EvGet r).
Proof.
  intros Hm Htrain h r. unfold train, bind at 1 in Htrain.
  rewrite RayRemoteModel_init_unfold, Hm in Htrain. fold h in Htrain.
  unfold bind at 1, execute in Htrain.
  destruct (dispatch_spec (fun t o => RayRemoteTrainer_train t o a) h (py_reduce m).2
              (executor_workers self) (captured w m) (captured_lookup w m))
    as (k & Hk & Hw & Hres).
  unfold train_fn in Htrain.
  destruct (for_each _ (executor_workers self) (captured w m)) as [w2 [results|e]];
    cbn [fst snd] in *; [|discriminate].
  destruct Hres as [-> HF].
  destruct results as [|[[w0 st]|] rest]; [discriminate| |discriminate].
  unfold bind, deref, assign, ret in Htrain. rewrite Hw in Htrain. simpl in Htrain.
  rewrite Hm in Htrain. injection Htrain as <- <-.
  exists w0, st, rest. split; [done|]. split; [done|]. simpl.
  split; [done|]. split; [done|]. split; [done|]. by rewrite <- app_assoc.
Qed.

(** A call of [train_online] that returns has written the weights the
    first worker returned into the caller's model object and returns that
    object; every worker ran its step on a copy restored from the one
    blob of the call. *)
Theorem train_online_takes_first_worker `{!ModelLaws MC}
    (self : @RayTrainer MC targs stats) (model : nat) (a : targs) (w w3 : world)
    (m : obj) (res : nat) :
  heap w !! model = Some m ->
  train_online self model a w = (w3, Ok res) ->
  let h := handle_of w m in
  exists w0 rest,
    res = model /\
    Forall2 (fun t x => RayRemoteTrainer_train_online t (restored h (py_reduce m).2) a = Ok x)
      (executor_workers self) (Some w0 :: rest) /\
    heap w3 = <[model := set_weights m w0]> (heap w) /\
    get_weights <$> heap w3 !! model = Some w0 /\
    put_count (trace w3) = S (put_count (trace w)).
Proof.
  intros Hm Htrain h. unfold train_online, bind at 1 in Htrain.
  rewrite RayRemoteModel_init_unfold, Hm in Htrain. fold h in Htrain.
  unfold bind at 1, execute in Htrain.
  destruct (dispatch_spec (fun t o => RayRemoteTrainer_train_online t o a) h (py_reduce m).2
              (executor_workers self) (captured w m) (captured_lookup w m))
    as (k & Hk & Hw & Hres).
  unfold train_online_fn in Htrain.
  destruct (for_each _ (executor_workers self) (captured w m)) as [w2 [results|e]];
    cbn [fst snd] in *; [|discriminate].
  destruct Hres as [-> HF].
  destruct results as [|[w0|] rest]; [discriminate| |discriminate].
  unfold bind, deref, assign, ret in Htrain. rewrite Hw in Htrain. simpl in Htrain.
  rewrite Hm in Htrain. injection Htrain as <- <-.
  exists w0, rest. split; [done|]. split; [done|]. cbn [heap set_heap].
  split; [done|]. split.
  - rewrite lookup_insert_eq. simpl. by rewrite (get_set_weights m).
  - cbn [trace set_heap]. unfold put_count.
    rewrite !filter_app, !length_app. simpl.
    rewrite filter_put_gets. simpl. lia.
Qed.

(** [train] and [train_online] need a result at index 0: an executor
    without workers makes them raise [IndexError]; and a first worker
    whose trainer returns [None] makes [train] raise [TypeError] at the
    unpacking, although every other worker returned weights.  In both
    cases the failure comes after the capture: the blob has been
    published, in the second case every worker has fetched it, and the
    caller's model and the actors are as they were. *)
Theorem train_needs_the_first_result
    (self : @RayTrainer MC targs stats) (model : nat) (a : targs) (w : world) (m : obj) :
  heap w !! model = Some m ->
  let o := restored (handle_of w m) (py_reduce m).2 in
  let r := length (store w) in
  (executor_workers self = [] ->
   train self model a w = (captured w m, Raise IndexError) /\
   train_online self model a w = (captured w m, Raise IndexError)) /\
  (forall t ts others,
     executor_workers self = t :: ts ->
     super_train t o a = Ok None ->
     Forall2 (fun t' x => RayRemoteTrainer_train t' o a = Ok x) ts others ->
     train self model a w =
       (World (heap w) (store w ++ [(py_reduce m).2]) (actors w)
          (trace w ++ EvPut r :: replicate (S (length ts)) (EvGet r)),
        Raise TypeError)) /\
  heap (captured w m) = heap w /\
  store (captured w m) = store w ++ [(py_reduce m).2] /\
  actors (captured w m) = actors w /\
  trace (captured w m) = trace w ++ [EvPut r].
Proof.
  intros Hm o r. split; [|split; [|done]].
  - intros Hws. unfold train, train_online, bind, execute.
    by rewrite RayRemoteModel_init_unfold, Hm, Hws.
  - intros t ts others Hws Hnone HF.
    assert (HF' : Forall2 (fun t' x => RayRemoteTrainer_train t' o a = Ok x)
                    (executor_workers self) (None :: others)).
    { rewrite Hws. constructor; [|done]. unfold RayRemoteTrainer_train. by rewrite Hnone. }
    pose proof (dispatch_all_ok (fun t o => RayRemoteTrainer_train t o a) (handle_of w m)
                  (py_reduce m).2 _ _ (captured w m) (captured_lookup w m) HF') as Hres.
    destruct (dispatch_spec (fun t o => RayRemoteTrainer_train t o a) (handle_of w m)
                (py_reduce m).2 (executor_workers self) (captured w m) (captured_lookup w m))
      as (k & _ & Hw & Hshape).
    unfold train, bind at 1. rewrite RayRemoteModel_init_unfold, Hm.
    unfold bind at 1, execute, train_fn.
    destruct (for_each _ (executor_workers self) (captured w m)) as [w2 [results|e]];
      cbn [fst snd] in *; [|discriminate].
    injection Hres as ->. destruct Hshape as [-> _]. rewrite Hw, Hws.
    cbn [heap store actors trace captured log set_store length handle_of rm_state].
    by rewrite <- app_assoc.
Qed.

End TrainerMore.

(** ** Handles and training at the small model class *)

Module ToyTraining.
Import Toy ToyJobs ToySpec.

Lemma captures_do_not_interfere_witness :
  heap toy_world !! 0%nat = Some toy /\
  exists h1 h2 o1 o2 w2,
    rm_state h1 ≠ rm_state h2 /\
    (load_value h1 w2).2 = Ok o1 /\ py_reduce o1 = py_reduce toy /\
    (load_value h2 w2).2 = Ok o2 /\ py_reduce o2 = py_reduce toy_retrained.
Proof.
  assert (Hm : heap toy_world !! 0%nat = Some toy) by reflexivity.
  split; [exact Hm|].
  destruct (captures_do_not_interfere (ModelLaws0 := toy_laws) toy_world 0 toy
              toy_retrained Hm)
    as (h1 & w1 & h2 & w2 & o1 & o2 & _ & _ & Hne & Hl1 & Hr1 & Hl2 & Hr2).
  exists h1, h2, o1, o2, w2. repeat split; assumption.
Defined.

Lemma train_runs_every_worker_on_one_snapshot_witness :
  exists w3 res,
    train two_workers 0 tt toy_world = (w3, Ok res) /\
    trace w3 = [EvPut 0; EvGet 0; EvGet 0].
Proof.
  assert (Hm : heap toy_world !! 0%nat = Some toy) by reflexivity.
  destruct (train two_workers 0%nat tt toy_world) as [w3 [res|e]] eqn:Htrain.
  - exists w3, res. split; [reflexivity|].
    destruct (train_runs_every_worker_on_one_snapshot two_workers 0%nat tt toy_world w3
                toy res Hm Htrain)
      as (w0 & st & rest & _ & _ & _ & _ & _ & Htrace).
    exact Htrace.
  - vm_compute in Htrain. discriminate Htrain.
Defined.

Lemma train_online_takes_first_worker_witness :
  exists w3 res,
    train_online two_workers 0 tt toy_world = (w3, Ok res) /\
    res = 0%nat /\ get_weights <$> heap w3 !! 0%nat = Some [1; 2].
Proof.
  assert (Hm : heap toy_world !! 0%nat = Some toy) by reflexivity.
  destruct (train_online two_workers 0%nat tt toy_world) as [w3 [res|e]] eqn:Htrain.
  - exists w3, res. split; [reflexivity|].
    destruct (train_online_takes_first_worker (ModelLaws0 := toy_laws) two_workers 0%nat tt
                toy_world w3 toy res Hm Htrain)
      as (w0 & rest & Hres & HF & _ & Hw & _).
    split; [exact Hres|].
    inversion HF as [|t x ts xs Hfirst _ Hws Hxs]. subst.
    vm_compute in Hfirst. injection Hfirst as <-. exact Hw.
  - vm_compute in Htrain. discriminate Htrain.
Defined.

Lemma train_needs_the_first_result_witness :
  heap toy_world !! 0%nat = Some toy /\
  train no_workers 0 tt toy_world = (captured toy_world toy, Raise IndexError) /\
  train silent_first 0 tt toy_world =
    (World (heap toy_world) [[10; 20]] [] [EvPut 0; EvGet 0; EvGet 0], Raise TypeError).
Proof.
  assert (Hm : heap toy_world !! 0%nat = Some toy) by reflexivity.
  split; [exact Hm|]. split.
  - exact (proj1 (proj1 (train_needs_the_first_result no_workers 0%nat tt toy_world toy Hm)
                    eq_refl)).
  - apply (proj1 (proj2 (train_needs_the_first_result silent_first 0%nat tt toy_world toy Hm))
             worker_silent [worker_returning [9; 9] 8] [Some ([9; 9], 8%nat)] eq_refl eq_refl).
    constructor; [reflexivity|constructor].
Defined.

End ToyTraining.

(** ** Inference: what forcing the tasks gives *)

Section PredictorMore.
Context {MC : ModelClass} {MV : MetricValue}.
Context {pkwargs part pargs preds : Type}.
Variable predictor_batch_predict : pkwargs -> obj -> part -> pargs -> result preds.
Variable predictor_batch_evaluation :
  pkwargs -> obj -> part -> pargs -> result (metrics * preds).

Local Abbreviation restored h s := (py_setstate (py_new (rm_cls h) (rm_args h)) s).


(** One evaluation task, from a world that holds the blob of the handle
    and the collector: the metrics of the partition are appended to the
    collector's list. *)
(** [batch_evaluation] asks the collector for the merged metrics before
    any partition has been evaluated: whatever the dataset and the
    evaluation routine, the metrics it returns are the merge of no
    mapping, and the collector it has made has received nothing when the
    call returns. *)
Theorem batch_evaluation_collects_before_any_partition_runs
    (self : @RayPredictor pkwargs) (model : nat) (dataset : list part) (a : pargs)
    (w w1 : world) (self' : @RayPredictor pkwargs) (mets : metrics)
    (tasks : list (evaluate_env * part)) :
  batch_evaluation self model dataset a w = (w1, Ok (self', (mets, tasks))) ->
  mets = sum_dicts [] /\
  actors w1 !! length (actors w) = Some [] /\
  actor_handles self' = actor_handles self ++ [length (actors w)] /\
  Forall (fun t => ee_metric_collector t.1 = length (actors w)) tasks.
Proof.
  rewrite batch_evaluation_unfold.
  destruct (heap w !! model) as [m|]; [|discriminate].
  cbv zeta. intros [= <- <- <- <-]. split; [done|]. split; [|split; [done|]].
  - cbn [actors log set_actors captured set_store with_collector].
    rewrite list_lookup_insert_eq; [done|]. rewrite length_app. simpl. lia.
  - apply Forall_forall. intros t Ht. apply list_elem_of_fmap in Ht as (p & -> & _). done.
Qed.






End PredictorMore.

(** ** Inference at the small model class *)

Module ToyInference.
Import Toy ToyJobs ToySpec.



Lemma batch_evaluation_collects_before_any_partition_runs_witness :
  exists w1 self' mets tasks,
    batch_evaluation toy_predictor 0 toy_dataset tt toy_world
      = (w1, Ok (self', (mets, tasks))) /\
    mets = [] /\ actor_handles self' = [0%nat].
Proof.
  destruct (batch_evaluation (MC := toy_class) (MV := qc_metric) (part := list Z)
              toy_predictor 0%nat toy_dataset tt toy_world)
    as [w1 [[self' [mets tasks]]|e]] eqn:Hcall.
  - exists w1, self', mets, tasks. split; [reflexivity|].
    destruct (batch_evaluation_collects_before_any_partition_runs (MC := toy_class)
                (MV := qc_metric) toy_predictor 0%nat toy_dataset tt toy_world w1 self'
                mets tasks Hcall)
      as (Hmets & _ & Hhandles & _).
    split; [exact Hmets|exact Hhandles].
  - vm_compute in Hcall. discriminate Hcall.
Defined.


End ToyInference.

(** ** The model server *)

Section ModelServerSpec.
Context {MC : ModelClass} {MV : MetricValue}.
Context {pkwargs part pargs preds : Type}.
Variable predictor_batch_predict : pkwargs -> obj -> part -> pargs -> result preds.

Local Abbreviation restored h s := (py_setstate (py_new (rm_cls h) (rm_args h)) s).

(** A request reads the server's model and changes nothing. *)
Lemma server_request (srv : @RayModelServer pkwargs) (o : obj) (p : part) (a : pargs)
    (w : world) :
  heap w !! server_model srv = Some o ->
  RayModelServer_batch_predict predictor_batch_predict srv p a w =
  (w, predictor_batch_predict (server_predictor srv) o p a).
Proof.
  intros Ho. unfold RayModelServer_batch_predict, bind, deref. by rewrite Ho.
Qed.

(** A server made from a handle fetches the blob once, when it is made,
    and keeps the restored model as an object of its own; the requests
    it then serves fetch nothing and change nothing, and each is answered
    by the prediction routine on that restored model. *)
Theorem model_server_loads_once
    (h : RayRemoteModel) (s : state) (kw : pkwargs) (w : world) :
  store w !! rm_state h = Some s ->
  exists w1 srv,
    RayModelServer_init h kw w = (w1, Ok srv) /\
    (server_model srv ∉ dom (heap w)) /\
    heap w1 !! server_model srv = Some (restored h s) /\
    server_predictor srv = kw /\
    trace w1 = trace w ++ [EvGet (rm_state h)] /\
    forall requests : list (part * pargs),
      (serve predictor_batch_predict srv requests w1).1 = w1 /\
      forall f : part * pargs -> preds,
        (forall r, r ∈ requests ->
           predictor_batch_predict kw (restored h s) r.1 r.2 = Ok (f r)) ->
        (serve predictor_batch_predict srv requests w1).2 = Ok (map f requests).
Proof.
  intros Hs. unfold RayModelServer_init, bind. rewrite load_unfold, Hs. cbv zeta.
  set (l := fresh (dom (heap w))).
  set (w1 := set_heap _ _).
  exists w1, {| server_model := l; server_predictor := kw |}.
  assert (Hl : heap w1 !! l = Some (restored h s)) by apply lookup_insert_eq.
  split; [done|]. split; [apply is_fresh|]. split; [done|]. split; [done|].
  split; [done|]. intros requests.
  assert (Hstep : forall r,
            RayModelServer_batch_predict predictor_batch_predict
              {| server_model := l; server_predictor := kw |} r.1 r.2 w1 =
            (w1, predictor_batch_predict kw (restored h s) r.1 r.2)).
  { intros r. by apply server_request. }
  unfold serve. split.
  - induction requests as [|r rs IH]; [done|].
    rewrite for_each_cons, Hstep.
    destruct (predictor_batch_predict kw (restored h s) r.1 r.2); [|done].
    destruct (for_each _ rs w1) as [w' [ys|e]]; exact IH.
  - intros f Hok. induction requests as [|r rs IH]; [done|].
    rewrite for_each_cons, Hstep, Hok by apply list_elem_of_here.
    assert (IH' : (for_each (fun r0 => RayModelServer_batch_predict predictor_batch_predict
                      {| server_model := l; server_predictor := kw |} r0.1 r0.2) rs w1).2
                  = Ok (map f rs)).
    { apply IH. intros r' Hr'. by apply Hok, list_elem_of_further. }
    destruct (for_each _ rs w1) as [w' [ys|e]]; simpl in *; congruence.
Qed.

End ModelServerSpec.

(** ** The model server at the small model class *)

Module ToyServer.
Import Toy ToyJobs ToySpec.

Lemma model_server_loads_once_witness :
  exists w1 srv,
    RayModelServer_init (handle_of toy_world toy) tt (captured toy_world toy) = (w1, Ok srv) /\
    trace w1 = trace (captured toy_world toy) ++ [EvGet 0%nat] /\
    serve toy_predict srv [([1; 2], tt); ([3], tt)] w1 = (w1, Ok [[11; 12]; [13]]).
Proof.
  destruct (model_server_loads_once (MC := toy_class) (MV := qc_metric) toy_predict
              (handle_of toy_world toy) [10; 20] tt (captured toy_world toy) eq_refl)
    as (w1 & srv & Hinit & _ & _ & _ & Htrace & Hserve).
  exists w1, srv. split; [exact Hinit|]. split; [exact Htrace|].
  destruct (Hserve [([1; 2], tt); ([3], tt)]) as [Hw Hres].
  specialize (Hres (fun r => map (Z.add 10) r.1)).
  assert (Hok : (serve toy_predict srv [([1; 2], tt); ([3], tt)] w1).2
                = Ok [[11; 12]; [13]]).
  { apply Hres. intros r0 Hr0.
    repeat (apply elem_of_cons in Hr0 as [->|Hr0]; [reflexivity|]).
    by apply not_elem_of_nil in Hr0. }
  destruct (serve (MC := toy_class) toy_predict srv [([1; 2], tt); ([3], tt)] w1) as [w' r].
  simpl in Hw, Hok. by rewrite Hw, Hok.
Defined.

End ToyServer.

(** ** The backend's keyword arguments *)

Module BackendSpec.
Import Bucketer TrainerInit TrainerInitSpec Backend.

Lemma dict_merge_empty (a : gmap string pyval) : dict_merge a ∅ = a.
Proof. unfold dict_merge. apply (left_id_L ∅ (∪)). Qed.

(** What [create_trainer] and [create_predictor] hand on.  A backend on
    which [initialize_tensorflow] was not called passes the caller's
    keyword arguments unchanged; after [initialize_tensorflow] its
    arguments win, key by key, over the caller's, and the executor's
    arguments are not affected; a backend made without Horovod
    arguments gives the executor exactly the resource-derived
    configuration. *)
Theorem backend_hands_on_keyword_arguments
    (hk : option (gmap string pyval)) (tf kwargs : gmap string pyval)
    (resources : list (gmap string Z)) (cluster : gmap string Z)
    (derived : gmap string pyval) :
  get_horovod_kwargs resources cluster = Ok derived ->
  (exists ea,
     create_trainer (RayBackend_init hk) kwargs resources cluster = Ok (ea, kwargs) /\
     (exists ek,
        create_trainer (initialize_tensorflow (RayBackend_init hk) tf) kwargs
          resources cluster = Ok (ea, ek) /\
        forall k, ek !! k = match tf !! k with Some v => Some v | None => kwargs !! k end) /\
     (hk = None -> ea_kwargs ea = derived)) /\
  predictor_kwargs (create_predictor (RayBackend_init hk) kwargs) = kwargs /\
  (forall k,
     predictor_kwargs (create_predictor (initialize_tensorflow (RayBackend_init hk) tf)
                         kwargs) !! k
     = match tf !! k with Some v => Some v | None => kwargs !! k end).
Proof.
  intros Hd. split; [|split].
  - unfold create_trainer, RayTrainer_executor_args. simpl. rewrite Hd.
    eexists. split; [by rewrite dict_merge_empty|]. split.
    + eexists. split; [done|]. intros k. apply dict_merge_lookup.
    + intros ->. simpl. apply dict_merge_empty.
  - simpl. apply dict_merge_empty.
  - intros k. simpl. apply dict_merge_lookup.
Qed.

Lemma backend_hands_on_keyword_arguments_witness :
  exists ea ek,
    create_trainer (initialize_tensorflow (RayBackend_init None)
                      (<["gpus" := VInt 1]> ∅))
      (<["gpus" := VInt 0]> (<["epochs" := VInt 5]> ∅))
      four_nodes four_nodes_cluster = Ok (ea, ek) /\
    ek !! "gpus" = Some (VInt 1) /\ ek !! "epochs" = Some (VInt 5) /\
    ea_kwargs ea = kwargs_dict 2 3 true.
Proof.
  destruct (backend_hands_on_keyword_arguments None (<["gpus" := VInt 1]> ∅)
              (<["gpus" := VInt 0]> (<["epochs" := VInt 5]> ∅))
              four_nodes four_nodes_cluster (kwargs_dict 2 3 true) eq_refl)
    as ((ea & _ & (ek & Hcall & Hk) & Hd) & _).
  exists ea, ek. split; [exact Hcall|]. split; [|split].
  - rewrite Hk. reflexivity.
  - rewrite Hk. reflexivity.
  - exact (Hd eq_refl).
Defined.

End BackendSpec.

(** ** The cache: paths, hits and misses *)

Module CacheStoreSpec.
Import CacheManager CacheStore.

Lemma chars_app (a b : string) : chars (a +:+ b) = chars a ++ chars b.
Proof. unfold chars. induction a as [|c a IH]; simpl; [done|]. by f_equal. Qed.

Lemma chars_inj (a b : string) : chars a = chars b -> a = b.
Proof.
  unfold chars. intros H.
  rewrite <- (string_of_list_ascii_of_string a), <- (string_of_list_ascii_of_string b).
  by rewrite H.
Qed.

Lemma append_assoc (a b c : string) : (a +:+ b) +:+ c = a +:+ (b +:+ c).
Proof. apply chars_inj. rewrite !chars_app. by rewrite app_assoc. Qed.

Lemma append_inv_tail (a b r : string) : a +:+ r = b +:+ r -> a = b.
Proof.
  intros H. apply chars_inj. apply (f_equal chars) in H.
  rewrite !chars_app in H. by apply app_inv_tail in H.
Qed.

Lemma not_slash {A} (c : ascii) (a b : A) :
  c ≠ "/"%char -> match c with "/"%char => a | _ => b end = b.
Proof. intros H. destruct c as [[] [] [] [] [] [] [] []]; try done. Qed.

Lemma leading_slash_chars (x : string) :
  leading_slash x = false ->
  chars x = [] \/ exists c l, chars x = c :: l /\ c ≠ "/"%char.
Proof.
  destruct x as [|c x]; [by left|]. intros H. right. exists c, (chars x).
  split; [done|]. intros ->. discriminate.
Qed.

(** [os.path.join] on a relative and on an absolute second argument. *)
Lemma join_relative (d x : string) :
  leading_slash x = false -> join d x = join_prefix d +:+ x.
Proof.
  intros Hx. unfold join, join_prefix.
  assert (Hgoal : match rev (chars d) with
                  | [] => d +:+ x
                  | "/"%char :: _ => d +:+ x
                  | _ => d +:+ "/" +:+ x
                  end =
                  match rev (chars d) with
                  | [] => d
                  | "/"%char :: _ => d
                  | _ => d +:+ "/"
                  end +:+ x).
  { destruct (rev (chars d)) as [|c' l']; [done|].
    destruct (decide (c' = "/"%char)) as [->|Hne']; [done|].
    rewrite !(not_slash c') by done. symmetry. apply append_assoc. }
  destruct (leading_slash_chars x Hx) as [->|(c & l & -> & Hne)]; [done|].
  by rewrite (not_slash c).
Qed.

Lemma join_absolute (d x : string) : leading_slash x = true -> join d x = x.
Proof.
  intros Hx. unfold join. destruct x as [|c x]; [discriminate|]. simpl in *.
  destruct c as [[] [] [] [] [] [] [] []]; try discriminate. done.
Qed.

Lemma join_inj (d x y : string) :
  leading_slash x = leading_slash y -> join d x = join d y -> x = y.
Proof.
  intros Hlead. destruct (leading_slash x) eqn:Hx; symmetry in Hlead.
  - by rewrite !join_absolute.
  - rewrite !join_relative by done. apply String.app_inj.
Qed.

Lemma leading_slash_app (k r : string) :
  leading_slash r = false -> leading_slash k = false -> leading_slash (k +:+ r) = false.
Proof. intros Hr Hk. by destruct k as [|c k]. Qed.

(** With an input file [get_cache_path] returns a path, made of the
    cache directory and the cache file name. *)
Lemma get_cache_path_file (self : CacheManager) (f key : string) (tag ext : option string) :
  get_cache_path self (Some f) key tag ext =
  Ok (join (get_cache_directory self (Some f))
        (cache_fname self key (tag_or_stem tag f) (ext_or_format self ext))).
Proof.
  unfold get_cache_path, cache_fname, tag_or_stem, ext_or_format.
  destruct (truthy tag); by destruct (cache_dir self).
Qed.

(** With a tag [get_cache_path] returns a path whatever the input. *)
Lemma get_cache_path_tagged (self : CacheManager) (input_fname : option string)
    (key t : string) (ext : option string) :
  t ≠ ""%string ->
  get_cache_path self input_fname key (Some t) ext =
  Ok (join (get_cache_directory self input_fname)
        (cache_fname self key t (ext_or_format self ext))).
Proof.
  intros Ht. unfold get_cache_path, cache_fname, ext_or_format.
  assert (Htag : truthy (Some t) = Some t) by (by destruct t).
  rewrite Htag. by destruct (cache_dir self).
Qed.

(** With a cache directory, two different cache keys that do not start
    with a slash never give the same path, for the same input, tag and
    extension. *)
Theorem cache_dir_keeps_keys_apart (self : CacheManager) (d : string)
    (input_fname : option string) (key1 key2 : string) (tag ext : option string)
    (p1 p2 : string) :
  cache_dir self = Some d ->
  leading_slash key1 = false ->
  leading_slash key2 = false ->
  key1 ≠ key2 ->
  get_cache_path self input_fname key1 tag ext = Ok p1 ->
  get_cache_path self input_fname key2 tag ext = Ok p2 ->
  p1 ≠ p2.
Proof.
  intros Hd H1 H2 Hne. unfold get_cache_path. rewrite Hd.
  destruct (match truthy tag with
            | Some t => Ok t
            | None => match input_fname with
                      | Some f => Ok (path_stem f)
                      | None => Raise TypeError
                      end
            end) as [t|e]; [|discriminate].
  intros [= <-] [= <-] Hp. apply Hne. apply join_inj in Hp.
  - by apply append_inv_tail in Hp.
  - by rewrite !leading_slash_app.
Qed.

Lemma cache_dir_keeps_keys_apart_witness :
  get_cache_path hdf5_in_cache (Some "/data/train.csv") "3a5f" None None
    = Ok "/cache/3a5f.train.hdf5" /\
  get_cache_path hdf5_in_cache (Some "/data/train.csv") "9c1e" None None
    = Ok "/cache/9c1e.train.hdf5" /\
  "/cache/3a5f.train.hdf5" ≠ "/cache/9c1e.train.hdf5".
Proof.
  split; [reflexivity|]. split; [reflexivity|].
  apply (cache_dir_keeps_keys_apart hdf5_in_cache "/cache" (Some "/data/train.csv")
           "3a5f" "9c1e" None None); try reflexivity.
  discriminate.
Defined.

Lemma leading_slash_app_same (k r1 r2 : string) :
  leading_slash r1 = leading_slash r2 ->
  leading_slash (k +:+ r1) = leading_slash (k +:+ r2).
Proof. intros Hr. by destruct k as [|c k]. Qed.

(** Cache file names with different tags are different files. *)
Lemma cache_paths_differ (self : CacheManager) (dir key t1 e1 t2 e2 : string) :
  leading_slash t1 = false -> leading_slash t2 = false ->
  t1 +:+ "." +:+ e1 ≠ t2 +:+ "." +:+ e2 ->
  join dir (cache_fname self key t1 e1) ≠ join dir (cache_fname self key t2 e2).
Proof.
  intros H1 H2 Hne Hp. apply Hne. unfold cache_fname in Hp.
  destruct (cache_dir self).
  - apply join_inj in Hp.
    + apply String.app_inj in Hp. by injection Hp.
    + by apply leading_slash_app_same.
  - apply join_inj in Hp; [done|].
    rewrite !leading_slash_app; done.
Qed.

Section StoreSpec.
Context {fs dataset config : Type}.
Variable CHECKSUM : string.
Variable calculate_checksum : string -> config -> string.
Variable path_exists : string -> fs -> bool.
Variable load_json : string -> fs -> result (gmap string pyval).
Variable save_json : string -> gmap string pyval -> fs -> fs.
Variable dm_can_cache : option string -> config -> bool -> bool.
Variable dm_save : string -> dataset -> config -> gmap string pyval -> fs -> fs * dataset.

Local Abbreviation get := (get_dataset CHECKSUM calculate_checksum path_exists load_json).
Local Abbreviation put := (put_dataset calculate_checksum save_json dm_can_cache dm_save).

Lemma get_dataset_file (self : CacheManager) (f : string) (cfg : config) (uuid : string)
    (s : fs) :
  let key := calculate_checksum f cfg in
  get self (Some f) cfg uuid s =
  if path_exists (meta_path self f key) s then
    match load_json (meta_path self f key) s with
    | Raise e => Raise e
    | Ok meta =>
        Ok (Some (bool_decide (meta !! CHECKSUM = Some (VStr key))
                  && path_exists (data_path self f key None) s,
                  meta,
                  data_path self f key None,
                  data_path self f key (Some "test"),
                  data_path self f key (Some "val")))
    end
  else Ok None.
Proof.
  intros key. unfold get_dataset. cbn [get_cache_key]. fold key.
  rewrite !get_cache_path_file. done.
Qed.

(** A cache entry found for an input file is valid exactly when the
    checksum in its metadata is the cache key of the file and the
    configuration and the dataset file exists.  Without a cache
    directory the entry of an input file is found under every
    configuration, with the same metadata and paths, so that the entry
    written under another configuration is reported, as invalid. *)
Theorem cached_entry_is_checked_against_the_key
    (self : CacheManager) (f : string) (cfg : config) (uuid : string) (s : fs)
    (valid : bool) (meta : gmap string pyval) (pd pt pv : string) :
  get self (Some f) cfg uuid s = Ok (Some (valid, meta, pd, pt, pv)) ->
  (valid = true <->
   meta !! CHECKSUM = Some (VStr (calculate_checksum f cfg)) /\ path_exists pd s = true) /\
  (cache_dir self = None ->
   forall (cfg' : config) (uuid' : string),
     get self (Some f) cfg' uuid' s =
     Ok (Some (bool_decide (meta !! CHECKSUM = Some (VStr (calculate_checksum f cfg')))
               && path_exists pd s, meta, pd, pt, pv))).
Proof.
  rewrite get_dataset_file. cbv zeta.
  destruct (path_exists (meta_path self f (calculate_checksum f cfg)) s) eqn:Hex;
    [|discriminate].
  destruct (load_json (meta_path self f (calculate_checksum f cfg)) s) as [m|e] eqn:Hload;
    [|discriminate].
  intros [= <- <- <- <- <-]. split.
  - rewrite andb_true_iff, bool_decide_eq_true. done.
  - intros Hdir cfg' uuid'. rewrite get_dataset_file. cbv zeta.
    unfold meta_path, data_path, cache_fname in *. rewrite Hdir in *.
    by rewrite Hex, Hload.
Qed.

(** A dataset that is in memory only, without an input file: the
    metadata path does not need the input, the dataset paths do.  So
    [get_dataset] returns [None] when the metadata file is missing and
    raises [TypeError] when it can be read; [put_dataset], when the
    dataset manager lets it cache, writes the metadata and then raises
    [TypeError]; and without a cache directory the metadata file is
    [./meta.json] whatever the key. *)
Theorem in_memory_input_is_not_cached
    (self : CacheManager) (cfg : config) (uuid : string) (s : fs) :
  let pm := join (get_cache_directory self None) (cache_fname self uuid "meta" "json") in
  get self None cfg uuid s =
    (if path_exists pm s then
       match load_json pm s with
       | Ok _ => Raise TypeError
       | Raise e => Raise e
       end
     else Ok None) /\
  (forall processed skip,
     dm_can_cache None cfg skip = true ->
     put self None cfg processed skip uuid s =
       (save_json pm processed.2 s, Raise TypeError)) /\
  (cache_dir self = None -> pm = "./meta.json"%string).
Proof.
  intros pm. split; [|split].
  - unfold get_dataset. cbn [get_cache_key].
    rewrite get_cache_path_tagged by done.
    change (ext_or_format self (Some "json")) with "json"%string. fold pm.
    destruct (path_exists pm s); [|done]. by destruct (load_json pm s).
  - intros [[[tr te] va] meta] skip Hcan. unfold put_dataset. rewrite Hcan.
    cbn [negb get_cache_key]. rewrite get_cache_path_tagged by done.
    change (ext_or_format self (Some "json")) with "json"%string. fold pm. done.
  - intros Hdir. unfold pm, get_cache_directory, cache_fname. by rewrite Hdir.
Qed.

Section RoundTrip.

(** What the round trip needs of the file operations: a file written is
    there and reads back, and saving a dataset creates its file, removes
    none and leaves the JSON files at other paths as they are. *)
Hypothesis save_json_exists : forall p m s, path_exists p (save_json p m s) = true.
Hypothesis save_json_load : forall p m s, load_json p (save_json p m s) = Ok m.
Hypothesis dm_save_exists : forall p d c m s, path_exists p (dm_save p d c m s).1 = true.
Hypothesis dm_save_keeps : forall p q d c m s,
  path_exists q s = true -> path_exists q (dm_save p d c m s).1 = true.
Hypothesis dm_save_json : forall p q d c m s,
  q ≠ p -> load_json q (dm_save p d c m s).1 = load_json q s.

Lemma save_split_keeps path split cfg meta (s : fs) q :
  path_exists q s = true ->
  path_exists q (save_split dm_save path split cfg meta s).1 = true.
Proof.
  intros Hq. unfold save_split. destruct split as [d|]; [|done].
  destruct path as [p|e]; [|done].
  pose proof (dm_save_keeps p q d cfg meta s Hq) as H.
  by destruct (dm_save p d cfg meta s).
Qed.

Lemma save_split_json p split cfg meta (s : fs) q :
  q ≠ p ->
  load_json q (save_split dm_save (Ok p) split cfg meta s).1 = load_json q s.
Proof.
  intros Hq. unfold save_split. destruct split as [d|]; [|done].
  pose proof (dm_save_json p q d cfg meta s Hq) as H.
  by destruct (dm_save p d cfg meta s).
Qed.

Lemma save_split_ok p split cfg meta (s : fs) :
  exists r, (save_split dm_save (Ok p) split cfg meta s).2 = Ok r.
Proof.
  unfold save_split. destruct split as [d|]; [|by eexists].
  destruct (dm_save p d cfg meta s). by eexists.
Qed.

(** What [put_dataset] has written for an input file is found by
    [get_dataset] under the same configuration, as a valid entry with
    the metadata that was put, provided the metadata carry the cache
    key as their checksum and the training set file is not the metadata
    file itself. *)
Theorem put_dataset_then_get_dataset
    (self : CacheManager) (f : string) (cfg : config)
    (tr : dataset) (te va : option dataset) (meta : gmap string pyval)
    (skip : bool) (uuid uuid' : string) (s : fs) :
  let key := calculate_checksum f cfg in
  dm_can_cache (Some f) cfg skip = true ->
  meta !! CHECKSUM = Some (VStr key) ->
  data_path self f key None ≠ meta_path self f key ->
  exists tr' te' va',
    (put self (Some f) cfg (tr, te, va, meta) skip uuid s).2 = Ok (tr', te', va', meta) /\
    get self (Some f) cfg uuid' (put self (Some f) cfg (tr, te, va, meta) skip uuid s).1 =
    Ok (Some (true, meta, data_path self f key None,
              data_path self f key (Some "test"), data_path self f key (Some "val"))).
Proof.
  intros key Hcan Hsum Hne.
  assert (Htest : data_path self f key (Some "test") ≠ meta_path self f key).
  { by apply cache_paths_differ. }
  assert (Hval : data_path self f key (Some "val") ≠ meta_path self f key).
  { by apply cache_paths_differ. }
  unfold put_dataset. rewrite Hcan. cbn [negb get_cache_key]. fold key.
  rewrite !get_cache_path_file.
  change (ext_or_format self (Some "json")) with "json"%string.
  change (tag_or_stem (Some "meta") f) with "meta"%string.
  change (ext_or_format self None) with (data_format self).
  fold (meta_path self f key) (data_path self f key None)
    (data_path self f key (Some "test")) (data_path self f key (Some "val")).
  set (pm := meta_path self f key). set (pd := data_path self f key None).
  set (pt := data_path self f key (Some "test")).
  set (pv := data_path self f key (Some "val")).
  set (s1 := save_json pm meta s).
  pose proof (dm_save_exists pd tr cfg meta s1) as Hpd2.
  pose proof (dm_save_keeps pd pm tr cfg meta s1 (save_json_exists pm meta s)) as Hpm2.
  pose proof (dm_save_json pd pm tr cfg meta s1 (not_eq_sym Hne)) as Hj2.
  destruct (dm_save pd tr cfg meta s1) as [s2 tr'] eqn:Hs2. cbn [fst] in *.
  pose proof (save_split_keeps (Ok pt) te cfg meta s2 pd Hpd2) as Hpd3.
  pose proof (save_split_keeps (Ok pt) te cfg meta s2 pm Hpm2) as Hpm3.
  pose proof (save_split_json pt te cfg meta s2 pm (not_eq_sym Htest)) as Hj3.
  destruct (save_split_ok pt te cfg meta s2) as [te' Hte].
  destruct (save_split dm_save (Ok pt) te cfg meta s2) as [s3 r3] eqn:Hs3.
  cbn [fst snd] in *. subst r3.
  pose proof (save_split_keeps (Ok pv) va cfg meta s3 pd Hpd3) as Hpd4.
  pose proof (save_split_keeps (Ok pv) va cfg meta s3 pm Hpm3) as Hpm4.
  pose proof (save_split_json pv va cfg meta s3 pm (not_eq_sym Hval)) as Hj4.
  destruct (save_split_ok pv va cfg meta s3) as [va' Hva].
  destruct (save_split dm_save (Ok pv) va cfg meta s3) as [s4 r4] eqn:Hs4.
  cbn [fst snd] in *. subst r4.
  exists tr', te', va'. split; [done|].
  rewrite get_dataset_file. cbv zeta.
  change (calculate_checksum f cfg) with key.
  change (meta_path self f key) with pm. change (data_path self f key None) with pd.
  cbn [fst]. rewrite Hpm4, Hj4, Hj3, Hj2. unfold s1. rewrite save_json_load, Hpd4.
  by rewrite bool_decide_eq_true_2.
Qed.

End RoundTrip.

End StoreSpec.

(** The file system as a finite map obeys the contract of the round
    trip. *)
Lemma map_fs_json_exists p m (s : gmap string file) :
  map_path_exists p (map_save_json p m s) = true.
Proof.
  unfold map_path_exists, map_save_json. apply bool_decide_eq_true_2.
  rewrite lookup_insert_eq. by eexists.
Qed.

Lemma map_fs_json_load p m (s : gmap string file) :
  map_load_json p (map_save_json p m s) = Ok m.
Proof. unfold map_load_json, map_save_json. by rewrite lookup_insert_eq. Qed.

Lemma map_fs_save_exists p d c m (s : gmap string file) :
  map_path_exists p (map_save p d c m s).1 = true.
Proof.
  unfold map_path_exists, map_save. apply bool_decide_eq_true_2. simpl.
  rewrite lookup_insert_eq. by eexists.
Qed.

Lemma map_fs_save_keeps p q d c m (s : gmap string file) :
  map_path_exists q s = true -> map_path_exists q (map_save p d c m s).1 = true.
Proof.
  unfold map_path_exists, map_save. rewrite !bool_decide_eq_true. simpl.
  intros Hq. destruct (decide (p = q)) as [->|Hne].
  - rewrite lookup_insert_eq. by eexists.
  - by rewrite lookup_insert_ne.
Qed.

Lemma map_fs_save_json p q d c m (s : gmap string file) :
  q ≠ p -> map_load_json q (map_save p d c m s).1 = map_load_json q s.
Proof.
  intros Hne. unfold map_load_json, map_save. simpl. by rewrite lookup_insert_ne.
Qed.

Lemma cached_entry_is_checked_against_the_key_witness :
  get_dataset "checksum" toy_checksum map_path_exists map_load_json
    hdf5_next_to_input (Some "/data/train.csv") "A" "" cached_for_A
  = Ok (Some (true, metadata_of "A", "/data/train.hdf5", "/data/test.hdf5",
              "/data/val.hdf5")) /\
  get_dataset "checksum" toy_checksum map_path_exists map_load_json
    hdf5_next_to_input (Some "/data/train.csv") "B" "" cached_for_A
  = Ok (Some (false, metadata_of "A", "/data/train.hdf5", "/data/test.hdf5",
              "/data/val.hdf5")).
Proof.
  assert (HA : get_dataset "checksum" toy_checksum map_path_exists map_load_json
                 hdf5_next_to_input (Some "/data/train.csv") "A" "" cached_for_A
               = Ok (Some (true, metadata_of "A", "/data/train.hdf5"%string,
                           "/data/test.hdf5"%string, "/data/val.hdf5"%string)))
    by (by vm_compute).
  split; [exact HA|].
  rewrite (proj2 (cached_entry_is_checked_against_the_key "checksum" toy_checksum
                    map_path_exists map_load_json hdf5_next_to_input "/data/train.csv"
                    "A" "" cached_for_A _ _ _ _ _ HA) eq_refl "B" "").
  by vm_compute.
Defined.

Lemma in_memory_input_is_not_cached_witness :
  put_dataset toy_checksum map_save_json can_cache_unless_skipped map_save
    hdf5_next_to_input None "A" ([1; 2; 3], None, None, metadata_of "A") false
    "0f1e" ∅
  = (<["./meta.json" := JsonFile (metadata_of "A")]> ∅, Raise TypeError).
Proof.
  exact (proj1 (proj2 (in_memory_input_is_not_cached "checksum" toy_checksum
                         map_path_exists map_load_json map_save_json
                         can_cache_unless_skipped map_save hdf5_next_to_input
                         "A" "0f1e" ∅))
           ([1; 2; 3], None, None, metadata_of "A") false eq_refl).
Defined.

Lemma put_dataset_then_get_dataset_witness :
  exists tr' te' va',
    (put_dataset toy_checksum map_save_json can_cache_unless_skipped map_save
       hdf5_in_cache (Some "/data/train.csv") "A"
       ([1; 2; 3], Some [4], None, metadata_of "A") false "" ∅).2
      = Ok (tr', te', va', metadata_of "A") /\
    get_dataset "checksum" toy_checksum map_path_exists map_load_json
      hdf5_in_cache (Some "/data/train.csv") "A" ""
      (put_dataset toy_checksum map_save_json can_cache_unless_skipped map_save
         hdf5_in_cache (Some "/data/train.csv") "A"
         ([1; 2; 3], Some [4], None, metadata_of "A") false "" ∅).1
      = Ok (Some (true, metadata_of "A",
                  data_path hdf5_in_cache "/data/train.csv" "A" None,
                  data_path hdf5_in_cache "/data/train.csv" "A" (Some "test"),
                  data_path hdf5_in_cache "/data/train.csv" "A" (Some "val"))).
Proof.
  apply (put_dataset_then_get_dataset "checksum" toy_checksum map_path_exists
           map_load_json map_save_json can_cache_unless_skipped map_save
           map_fs_json_exists map_fs_json_load map_fs_save_exists map_fs_save_keeps
           map_fs_save_json hdf5_in_cache "/data/train.csv" "A" [1; 2; 3] (Some [4]) None
           (metadata_of "A") false "" "" ∅).
  - reflexivity.
  - reflexivity.
  - by vm_compute.
Defined.

End CacheStoreSpec.

(** ** The cache: where the files go without a cache directory *)

Module CacheDirSpec.
Import CacheManager CacheStore CacheStoreSpec.

Lemma chars_str (l : list ascii) : chars (str l) = l.
Proof. apply list_ascii_of_string_of_list_ascii. Qed.

Lemma str_chars (s : string) : str (chars s) = s.
Proof. apply string_of_list_ascii_of_string. Qed.

Lemma drop_until_absent (c : ascii) (l : list ascii) : c ∉ l -> drop_until c l = [].
Proof.
  induction l as [|x l IH]; [done|]. intros Hc. simpl.
  destruct (decide (x = c)) as [->|_].
  - exfalso. apply Hc, list_elem_of_here.
  - apply IH. intros H. by apply Hc, list_elem_of_further.
Qed.

Lemma drop_until_first (c : ascii) (l1 l2 : list ascii) :
  c ∉ l1 -> drop_until c (l1 ++ c :: l2) = c :: l2.
Proof.
  induction l1 as [|x l1 IH]; intros Hc; simpl.
  - by rewrite decide_True.
  - destruct (decide (x = c)) as [->|_].
    + exfalso. apply Hc, list_elem_of_here.
    + apply IH. intros H. by apply Hc, list_elem_of_further.
Qed.

Lemma drop_until_subset (c x : ascii) (l : list ascii) : x ∈ drop_until c l -> x ∈ l.
Proof.
  induction l as [|y l IH]; [done|]. simpl.
  destruct (decide (y = c)); [done|]. intros H. by apply list_elem_of_further, IH.
Qed.

Lemma elem_of_rev (x : ascii) (l : list ascii) : x ∈ rev l <-> x ∈ l.
Proof. rewrite !list_elem_of_In. symmetry. apply in_rev. Qed.

Lemma head_of_absent (b : list ascii) : "/"%char ∉ b -> head_of b = [].
Proof.
  intros Hb. unfold head_of. rewrite drop_until_absent; [done|].
  by rewrite elem_of_rev.
Qed.

Lemma head_of_last_slash (a b : list ascii) :
  "/"%char ∉ b -> head_of (a ++ "/"%char :: b) = a ++ ["/"%char].
Proof.
  intros Hb. unfold head_of.
  rewrite rev_app_distr. simpl. rewrite <- app_assoc. simpl.
  rewrite drop_until_first by (by rewrite elem_of_rev).
  simpl. by rewrite rev_involutive.
Qed.

Lemma lstrip_all (c : ascii) (l : list ascii) :
  lstrip c l = [] <-> forall x, x ∈ l -> x = c.
Proof.
  induction l as [|y l IH]; simpl.
  - split; [|done]. intros _ x Hx. by apply not_elem_of_nil in Hx.
  - destruct (decide (y = c)) as [->|Hne].
    + rewrite IH. split.
      * intros H x Hx. apply elem_of_cons in Hx as [->|Hx]; [done|by apply H].
      * intros H x Hx. by apply H, list_elem_of_further.
    + split; [done|]. intros H. exfalso. apply Hne, H, list_elem_of_here.
Qed.

Lemma lstrip_head (c : ascii) (l : list ascii) :
  lstrip c l = [] \/ exists x l', lstrip c l = x :: l' /\ x ≠ c.
Proof.
  induction l as [|y l IH]; simpl; [by left|].
  destruct (decide (y = c)); [done|]. right. by exists y, l.
Qed.

(** The three shapes of a directory name: empty, slashes only, or
    ending in something else than a slash. *)
Lemma dirname_shape (f : string) :
  chars (dirname f) = [] \/
  (chars (dirname f) ≠ [] /\ lstrip "/"%char (chars (dirname f)) = []) \/
  exists d c, chars (dirname f) = d ++ [c] /\ c ≠ "/"%char.
Proof.
  unfold dirname. cbv zeta.
  destruct (decide (head_of (chars f) ≠ [] ∧ lstrip "/"%char (head_of (chars f)) ≠ []))
    as [[Hne Hstrip]|Hno]; rewrite chars_str.
  - right. right. unfold rstrip.
    destruct (lstrip_head "/"%char (rev (head_of (chars f)))) as [Hall|(x & l' & -> & Hx)].
    + exfalso. apply Hstrip. apply lstrip_all. intros x Hx.
      apply (proj1 (lstrip_all _ _) Hall). by rewrite elem_of_rev.
    + exists (rev l'), x. done.
  - destruct (decide (head_of (chars f) = [])) as [->|Hne]; [by left|].
    right. left. split; [done|].
    destruct (decide (lstrip "/"%char (head_of (chars f)) = [])) as [H|H]; [done|].
    exfalso. by apply Hno.
Qed.

Lemma absent_leading_slash (b : string) : "/"%char ∉ chars b -> leading_slash b = false.
Proof.
  destruct b as [|c b]; [done|]. intros Hb. simpl.
  destruct (decide (c = "/"%char)) as [->|Hne].
  - exfalso. apply Hb. apply list_elem_of_here.
  - by rewrite (not_slash c).
Qed.

(** [dirname] undoes [join] with a file name, on a directory that is
    itself a [dirname]. *)
Lemma dirname_join_dirname (f b : string) :
  "/"%char ∉ chars b -> dirname (join (dirname f) b) = dirname f.
Proof.
  intros Hb. rewrite join_relative by by apply absent_leading_slash.
  set (d := dirname f).
  destruct (dirname_shape f) as [Hd|[[Hne Hall]|(d' & c & Hd & Hc)]]; fold d in Hd || idtac.
  - unfold join_prefix. rewrite Hd. simpl.
    assert (Hempty : d = ""%string) by (by apply chars_inj).
    rewrite Hempty. simpl. unfold dirname. cbv zeta.
    rewrite head_of_absent by done. by rewrite decide_False by (by intros [? _]).
  - fold d in Hne, Hall.
    assert (Hlast : exists d', chars d = d' ++ ["/"%char]).
    { destruct (chars d) as [|x l] eqn:E using rev_ind; [done|].
      exists l. f_equal. f_equal. apply (proj1 (lstrip_all _ _) Hall).
      apply elem_of_app. right. apply list_elem_of_here. }
    destruct Hlast as [d' Hd'].
    unfold join_prefix. rewrite Hd', rev_app_distr. simpl.
    unfold dirname. cbv zeta. rewrite chars_app, Hd', <- app_assoc. simpl.
    rewrite head_of_last_slash by done. rewrite <- Hd'.
    rewrite decide_False by (by intros [_ ?]). apply str_chars.
  - assert (Hpre : join_prefix d = d +:+ "/").
    { unfold join_prefix. rewrite Hd, rev_app_distr. simpl. by rewrite (not_slash c). }
    rewrite Hpre. unfold dirname at 1. cbv zeta.
    rewrite !chars_app, <- app_assoc. simpl.
    rewrite head_of_last_slash by done.
    assert (Hstrip : lstrip "/"%char (chars d ++ ["/"%char]) ≠ []).
    { intros H. apply Hc. apply (proj1 (lstrip_all _ _) H).
      rewrite Hd. apply elem_of_app. left. apply elem_of_app. right.
      apply list_elem_of_here. }
    rewrite decide_True by (split; [by destruct (chars d)|done]).
    unfold rstrip. rewrite rev_app_distr. simpl.
    rewrite Hd, rev_app_distr. cbn [rev app lstrip]. rewrite decide_False by done.
    change (c :: rev d') with (rev [c] ++ rev d').
    rewrite <- rev_app_distr, rev_involutive, <- Hd. apply str_chars.
Qed.

(** No component of a path holds a slash, so neither does the stem. *)
Lemma split_sep_absent (p x : list ascii) : x ∈ split_sep p -> "/"%char ∉ x.
Proof.
  revert x. induction p as [|c p IH]; intros x; simpl.
  - intros Hx. apply list_elem_of_singleton in Hx as ->. apply not_elem_of_nil.
  - destruct (decide (c = "/"%char)) as [->|Hne].
    + intros Hx. apply elem_of_cons in Hx as [->|Hx]; [apply not_elem_of_nil|by apply IH].
    + destruct (split_sep p) as [|y ys].
      * intros Hx. apply list_elem_of_singleton in Hx as ->.
        intros H. apply list_elem_of_singleton in H. by apply Hne.
      * intros Hx. apply elem_of_cons in Hx as [->|Hx].
        -- intros H. apply elem_of_cons in H as [H|H]; [by apply Hne|].
           revert H. apply IH, list_elem_of_here.
        -- by apply IH, list_elem_of_further.
Qed.

Lemma path_name_absent (p : string) : "/"%char ∉ path_name p.
Proof.
  unfold path_name.
  destruct (last _) as [x|] eqn:E; simpl; [|apply not_elem_of_nil].
  apply (split_sep_absent (chars p)).
  apply last_Some in E as [l' E].
  assert (Hx : x ∈ filter (fun x => x ≠ [] ∧ x ≠ ["."%char]) (split_sep (chars p))).
  { rewrite E. apply elem_of_app. right. apply list_elem_of_here. }
  by apply list_elem_of_filter in Hx as [_ Hx].
Qed.

Lemma path_stem_absent (p : string) : "/"%char ∉ chars (path_stem p).
Proof.
  unfold path_stem. cbv zeta.
  destruct (drop_until "."%char (rev (path_name p))) as [|c stem_rev] eqn:E.
  - rewrite chars_str. apply path_name_absent.
  - destruct (decide _); rewrite chars_str; [|apply path_name_absent].
    intros H. apply (path_name_absent p). apply elem_of_rev.
    apply (drop_until_subset "."%char). rewrite E.
    apply list_elem_of_further. by apply elem_of_rev.
Qed.

Lemma truthy_Some (x : option string) (t : string) : truthy x = Some t -> x = Some t.
Proof. destruct x as [[|c s]|]; [discriminate|done|done]. Qed.

(** Without a cache directory every cache file of an input file lies in
    the directory of that file, whatever the key, as long as neither the
    tag nor the extension holds a slash. *)
Theorem cache_files_are_siblings_of_the_input (self : CacheManager) (f key : string)
    (tag ext : option string) :
  cache_dir self = None ->
  (forall t, tag = Some t -> "/"%char ∉ chars t) ->
  (forall e, ext = Some e -> "/"%char ∉ chars e) ->
  "/"%char ∉ chars (data_format self) ->
  exists p,
    get_cache_path self (Some f) key tag ext = Ok p /\
    dirname p = dirname f /\
    dirname p = get_cache_directory self (Some f).
Proof.
  intros Hdir Htag Hext Hfmt. rewrite get_cache_path_file.
  eexists. split; [reflexivity|].
  assert (Hd : get_cache_directory self (Some f) = dirname f).
  { unfold get_cache_directory. by rewrite Hdir. }
  rewrite Hd.
  enough (Hgoal : "/"%char ∉ chars (cache_fname self key (tag_or_stem tag f)
                                     (ext_or_format self ext))).
  { by rewrite dirname_join_dirname. } unfold cache_fname. rewrite Hdir.
  rewrite !chars_app. intros H.
  apply elem_of_app in H as [H|H].
  - revert H. unfold tag_or_stem.
    destruct (truthy tag) as [t|] eqn:E.
    + apply Htag. by apply truthy_Some.
    + apply path_stem_absent.
  - apply elem_of_app in H as [H|H].
    + apply list_elem_of_singleton in H. discriminate.
    + revert H. unfold ext_or_format.
      destruct (truthy ext) as [e|] eqn:E; [|done].
      apply Hext. by apply truthy_Some.
Qed.

Lemma cache_files_are_siblings_of_the_input_witness :
  exists p,
    get_cache_path hdf5_next_to_input (Some "/data/in/train.csv") "3a5f" None None = Ok p /\
    dirname p = dirname "/data/in/train.csv" /\
    dirname p = get_cache_directory hdf5_next_to_input (Some "/data/in/train.csv").
Proof.
  apply (cache_files_are_siblings_of_the_input hdf5_next_to_input "/data/in/train.csv"
           "3a5f" None None).
  - reflexivity.
  - discriminate.
  - discriminate.
  - vm_compute. intros H. repeat (apply elem_of_cons in H as [H|H]; [discriminate|]).
    by apply not_elem_of_nil in H.
Defined.

End CacheDirSpec.
